(** * StaticEnvironment: feedback against a ground-truth table

    A shallow embedding of [adala/environments/static_env.py].  The class
    [StaticEnvironment] compares a table of predictions with a table of
    ground-truth labels and returns, for each skill output, a column of
    matches and a column of feedback sentences.

    The pandas operations the method calls are embedded as functions on
    association lists (a pandas index is ordered and labels every value);
    Python exceptions are the [Raise] results of an error monad.  The
    embedding of pandas covers tables whose row labels are unique: the
    theorems that depend on label lookups say so in a hypothesis. *)

From Stdlib Require Import ZArith QArith String Ascii.
From stdpp Require Import base decidable option list strings gmap.

Close Scope Q_scope.
Open Scope Z_scope.
Open Scope string_scope.
Open Scope list_scope.

(** ** Exceptions and the error monad *)

Inductive exception : Type :=
| KeyError (key : string)
| ValueError (msg : string)
| NotImplementedError (msg : string).

Inductive result (A : Type) : Type :=
| Ok (a : A)
| Raise (e : exception).

Arguments Ok {A} a.
Arguments Raise {A} e.

#[global] Instance result_ret : MRet result := λ A a, Ok a.
#[global] Instance result_bind : MBind result := λ A B f m,
  match m with
  | Ok a => f a
  | Raise e => Raise e
  end.
#[global] Instance result_fmap : FMap result := λ A B f m,
  match m with
  | Ok a => Ok (f a)
  | Raise e => Raise e
  end.

(** A call returns when its result is an [Ok]. *)
Definition returns {A} (m : result A) : Prop := ∃ a, m = Ok a.

#[global] Instance exception_eq_dec : EqDecision exception.
Proof. solve_decision. Defined.

(** ** Cells, series and frames *)

(** A cell of a table: [NaN] is the null value ([np.nan]), the other
    cells hold a string or a boolean. *)
Inductive cell : Type :=
| NaN
| Str (s : string)
| Bool (b : bool).

#[global] Instance cell_eq_dec : EqDecision cell.
Proof. solve_decision. Defined.

(** [pd.notnull] and [pd.isna] on a cell. *)
Definition notnull (c : cell) : bool :=
  match c with NaN => false | _ => true end.

Definition isna (c : cell) : bool := negb (notnull c).

(** Python's [==] on two cells: NaN differs from everything, itself
    included; a string never equals a boolean. *)
Definition py_eq (a b : cell) : bool :=
  match a, b with
  | Str s, Str t => bool_decide (s = t)
  | Bool x, Bool y => bool_decide (x = y)
  | _, _ => false
  end.

(** Python's truth value of a cell: a float NaN is true, a string is
    true unless empty. *)
Definition py_truth (c : cell) : bool :=
  match c with
  | NaN => true
  | Str s => negb (bool_decide (s = EmptyString))
  | Bool b => b
  end.

(** Python's [str()] of a cell, as an f-string prints it. *)
Definition py_str (c : cell) : string :=
  match c with
  | NaN => "nan"
  | Str s => s
  | Bool true => "True"
  | Bool false => "False"
  end.

(** [InternalSeries]: values labelled by the rows of an index. *)
Definition Series : Type := list (Z * cell).

Definition s_index (s : Series) : list Z := s.*1.

(** The value a series holds at label [r], null when [r] is not in its
    index. *)
Fixpoint series_get (r : Z) (s : Series) : cell :=
  match s with
  | [] => NaN
  | (l, v) :: s' => if decide (l = r) then v else series_get r s'
  end.

(** [InternalSeries(value, index=idx)]. *)
Definition series_const (v : cell) (idx : list Z) : Series :=
  (λ r, (r, v)) <$> idx.

(** [s.reindex(idx)]. *)
Definition series_reindex (s : Series) (idx : list Z) : Series :=
  (λ r, (r, series_get r s)) <$> idx.

(** [InternalDataFrame]: named columns, and rows labelled by the index;
    each row holds one cell per column. *)
Record DataFrame : Type := mkDataFrame {
  df_columns : list string;
  df_rows : list (Z * list cell)
}.

Definition df_index (d : DataFrame) : list Z := (df_rows d).*1.

Fixpoint position (c : string) (cols : list string) : option nat :=
  match cols with
  | [] => None
  | c' :: cols' =>
      if decide (c' = c) then Some 0%nat else S <$> position c cols'
  end.

(** [d[c]]: the column named [c], a [KeyError] when there is none. *)
Definition df_getitem (d : DataFrame) (c : string) : result Series :=
  match position c (df_columns d) with
  | None => Raise (KeyError c)
  | Some j => Ok ((λ row, (row.1, default NaN (row.2 !! j))) <$> df_rows d)
  end.

Fixpoint row_lookup (r : Z) (rows : list (Z * list cell)) : option (list cell) :=
  match rows with
  | [] => None
  | (l, cs) :: rows' => if decide (l = r) then Some cs else row_lookup r rows'
  end.

(** The cell of frame [d] at row [r] and column [c], when both exist. *)
Definition df_at (d : DataFrame) (r : Z) (c : string) : option cell :=
  cs ← row_lookup r (df_rows d);
  j ← position c (df_columns d);
  cs !! j.

(** *** Index union

    pandas joins two indexes on their labels: equal indexes are kept as
    they are, otherwise the union of the labels is taken in sorted
    order. *)
Fixpoint insert_sorted (x : Z) (l : list Z) : list Z :=
  match l with
  | [] => [x]
  | y :: l' =>
      if decide (x < y) then x :: l
      else if decide (x = y) then l
      else y :: insert_sorted x l'
  end.

Definition sort_unique (l : list Z) : list Z := foldr insert_sorted [] l.

Definition union_indexes (idxs : list (list Z)) : list Z :=
  match idxs with
  | [] => []
  | i :: rest =>
      if bool_decide (Forall (λ j, j = i) rest) then i
      else sort_unique (concat idxs)
  end.

(** [a.align(b)]: both series on the joined index, null where a side has
    no such row. *)
Definition series_align (a b : Series) : Series * Series :=
  if decide (s_index a = s_index b) then (a, b)
  else
    let idx := union_indexes [s_index a; s_index b] in
    (series_reindex a idx, series_reindex b idx).

(** Boolean series, as [notnull()] and [&] produce them. *)
Definition Mask : Type := list (Z * bool).

Definition series_notnull (s : Series) : Mask :=
  (λ x, (x.1, notnull x.2)) <$> s.

Definition mask_and (a b : Mask) : Mask :=
  zip_with (λ x y, (x.1, x.2 && y.2)) a b.

(** [s[mask]]: the rows of [s] where the mask is true. *)
Definition series_mask (s : Series) (m : Mask) : Series :=
  (filter (λ p, p.2 = true) (zip s m.*2)).*1.

(** [a.combine(b, f)] on two series over the same index. *)
Definition series_combine (f : cell → cell → cell) (a b : Series) : Series :=
  zip_with (λ x y, (x.1, f x.2 y.2)) a b.

(** [a == b] on two series over the same index. *)
Definition series_eq (a b : Series) : Series :=
  series_combine (λ x y, Bool (py_eq x y)) a b.

(** A frame from named series ([InternalDataFrame(dict)], and
    [InternalDataFrameConcat(..., axis=1)]): the columns in the given
    order over the union of the indexes. *)
Definition frame_of_series (cols : list (string * Series)) : DataFrame :=
  let idx := union_indexes ((λ c, s_index c.2) <$> cols) in
  {| df_columns := cols.*1;
     df_rows := (λ r, (r, (λ c, series_get r c.2) <$> cols)) <$> idx |}.

(** [d.reindex(idx)]: the rows of [d] at the labels of [idx], null rows
    for the labels [d] does not have. *)
Definition df_reindex (d : DataFrame) (idx : list Z) : DataFrame :=
  {| df_columns := df_columns d;
     df_rows := (λ r, (r, default (replicate (length (df_columns d)) NaN)
                                 (row_lookup r (df_rows d)))) <$> idx |}.

(** [d.apply(f, axis=1)]: [f] on every row, the row given as the cells
    labelled by the column names; an exception of [f] ends the call. *)
Definition df_apply_rows (f : list (string * cell) → result cell)
    (d : DataFrame) : result Series :=
  mapM (λ row, v ← f (zip (df_columns d) row.2); mret (row.1, v)) (df_rows d).

(** [row[k]]: every cell of the row that is labelled [k]. *)
Definition row_getitem (row : list (string * cell)) (k : string) : list cell :=
  (filter (λ p, p.1 = k) row).*2.

(** *** Sampling

    [d.sample(n=n)] draws [n] rows without replacement.  The numbers the
    random generator yields are the list [rng]: each draw takes the row at
    that position (modulo the size) out of the remaining pool. *)
Fixpoint draw {A} (rng : list nat) (n : nat) (pool : list A) : list A :=
  match n with
  | O => []
  | S n' =>
      let i := (hd 0 rng `mod` length pool)%nat in
      match pool !! i with
      | None => []
      | Some x => x :: draw (tl rng) n' (delete i pool)
      end
  end.

Definition df_sample (rng : list nat) (n : Z) (d : DataFrame) : result DataFrame :=
  if decide (n < 0) then
    Raise (ValueError "A negative number of rows requested. Please provide `n` >= 0.")
  else if decide (Z.of_nat (length (df_rows d)) < n) then
    Raise (ValueError "Cannot take a larger sample than population when 'replace=False'")
  else
    Ok {| df_columns := df_columns d;
          df_rows := draw rng (Z.to_nat n) (df_rows d) |}.

(** *** Python dictionaries

    [d[k] = v] on a dictionary that keeps its keys in insertion order. *)
Fixpoint dict_set {V} (k : string) (v : V) (d : list (string * V)) : list (string * V) :=
  match d with
  | [] => [(k, v)]
  | (k', v') :: d' =>
      if decide (k' = k) then (k, v) :: d' else (k', v') :: dict_set k v d'
  end.

Fixpoint dict_get {V} (k : string) (d : list (string * V)) : option V :=
  match d with
  | [] => None
  | (k', v') :: d' => if decide (k' = k) then Some v' else dict_get k d'
  end.

(** ** The environment *)

(** [matching_function: Union[str, Callable]]. *)
Inductive MatchingFunction : Type :=
| MFName (name : string)
| MFCallable (f : cell → cell → bool).

Record StaticEnvironment : Type := mkStaticEnvironment {
  df : DataFrame;
  ground_truth_columns : gmap string string;
  matching_function : MatchingFunction;
  matching_threshold : Q
}.

(** [EnvironmentFeedback(match=..., feedback=...)]. *)
Record EnvironmentFeedback : Type := mkEnvironmentFeedback {
  fb_match : DataFrame;
  fb_feedback : DataFrame
}.

Definition dquote : string := String "034"%char EmptyString.

Definition correct_msg : string := "Prediction is correct.".

Definition incorrect_msg (answer : string) : string :=
  "Prediction is incorrect. Correct answer: " +:+ dquote +:+ answer +:+ dquote.

Definition unknown_matching_msg (name : string) : string :=
  "Unknown matching function " +:+ name.

Definition unsupported_msg : string :=
  "StaticEnvironment does not support save/restore.".

Definition ambiguous_msg : string :=
  "The truth value of a Series is ambiguous.".

(** The lambda of [match_concat.apply]: the sentence for one row.  When
    two columns of the row are called [match], [row["match"]] is a series
    and Python refuses to take its truth value; otherwise the ground-truth
    column is the other column of the row and [row[gt_column]] is its
    cell. *)
Definition feedback_of_row (gt_column : string) (row : list (string * cell))
    : result cell :=
  match row_getitem row "match" with
  | [m] =>
      if py_truth m then Ok (Str correct_msg)
      else if negb (isna m) then
        match row_getitem row gt_column with
        | [g] => Ok (Str (incorrect_msg (py_str g)))
        | _ => Raise (KeyError gt_column)
        end
      else Ok NaN
  | _ => Raise (ValueError ambiguous_msg)
  end.

(** Closed decidable goals are settled by evaluation. *)
Ltac by_compute := apply (bool_decide_unpack _); vm_compute; exact I.

Ltac in_skills H :=
  repeat (apply elem_of_cons in H as [->|H]; [by_compute |]);
  by apply elem_of_nil in H.

Section StaticEnvironment.

(** Modelled from the spec: [adala.utils.matching.fuzzy_match] is not
    among the sources.  It returns one boolean per row, true iff the
    similarity of the two values reaches the threshold; the similarity
    itself is a parameter. *)
Variable similarity : cell → cell → Q.

Definition fuzzy_match (x y : Series) (threshold : Q) : Series :=
  series_combine (λ g p, Bool (Qle_bool threshold (similarity g p))) x y.

(** Lines 84-98: the comparison of the ground truth with the predictions. *)
Definition compare (env : StaticEnvironment) (gt pred : Series) : result Series :=
  match matching_function env with
  | MFName name =>
      if decide (name = "exact") then Ok (series_eq gt pred)
      else if decide (name = "fuzzy") then
        Ok (fuzzy_match gt pred (matching_threshold env))
      else Raise (NotImplementedError (unknown_matching_msg name))
  | MFCallable f => Ok (series_combine (λ g p, Bool (f g p)) gt pred)
  end.

(** [self.ground_truth_columns.get(pred_column, pred_column)]. *)
Definition gt_column_of (env : StaticEnvironment) (pred_column : string) : string :=
  default pred_column (ground_truth_columns env !! pred_column).

(** Lines 69-111: the body of the loop, for one skill output.  It returns
    the two series the loop stores in [pred_match] and [pred_feedback]. *)
Definition field_feedback (env : StaticEnvironment) (predictions : DataFrame)
    (pred_column : string) : result (Series * Series) :=
  pred ← df_getitem predictions pred_column;
  let gt_column := gt_column_of env pred_column in
  if bool_decide (gt_column ∉ df_columns (df env)) then
    Ok (series_const NaN (s_index pred), series_const NaN (s_index pred))
  else
    gt ← df_getitem (df env) gt_column;
    let '(gt, pred) := series_align gt pred in
    let nonnull_index := mask_and (series_notnull gt) (series_notnull pred) in
    let gt := series_mask gt nonnull_index in
    let pred := series_mask pred nonnull_index in
    gt_pred_match ← compare env gt pred;
    let match_concat :=
      frame_of_series [("match", gt_pred_match); (gt_column, gt)] in
    feedback ← df_apply_rows (feedback_of_row gt_column) match_concat;
    Ok (gt_pred_match, feedback).

(** Lines 68-111: the loop over the skill outputs. *)
Fixpoint feedback_loop (env : StaticEnvironment) (predictions : DataFrame)
    (pred_columns : list string) (pred_match pred_feedback : list (string * Series))
    : result (list (string * Series) * list (string * Series)) :=
  match pred_columns with
  | [] => Ok (pred_match, pred_feedback)
  | pred_column :: rest =>
      mf ← field_feedback env predictions pred_column;
      feedback_loop env predictions rest
        (dict_set pred_column mf.1 pred_match)
        (dict_set pred_column mf.2 pred_feedback)
  end.

(** Lines 65-66: the predictions the loop works on. *)
Definition sample_predictions (rng : list nat) (predictions : DataFrame)
    (num_feedbacks : option Z) : result DataFrame :=
  match num_feedbacks with
  | Some n => df_sample rng n predictions
  | None => Ok predictions
  end.

(** [StaticEnvironment.get_feedback]; [skills] stands for the list
    [skills.get_skill_outputs()]. *)
Definition get_feedback (env : StaticEnvironment) (rng : list nat)
    (skills : list string) (predictions : DataFrame) (num_feedbacks : option Z)
    : result EnvironmentFeedback :=
  let pred_columns := skills in
  predictions ← sample_predictions rng predictions num_feedbacks;
  dicts ← feedback_loop env predictions pred_columns [] [];
  Ok {| fb_match := df_reindex (frame_of_series dicts.1) (df_index predictions);
        fb_feedback := df_reindex (frame_of_series dicts.2) (df_index predictions) |}.

(** [StaticEnvironment.get_data_batch]. *)
Definition get_data_batch (env : StaticEnvironment) (rng : list nat)
    (batch_size : option Z) : result DataFrame :=
  match batch_size with
  | Some n => df_sample rng n (df env)
  | None => Ok (df env)
  end.

(** [StaticEnvironment.save] and [StaticEnvironment.restore]. *)
Definition save (env : StaticEnvironment) : result unit :=
  Raise (NotImplementedError unsupported_msg).

Definition restore (env : StaticEnvironment) : result unit :=
  Raise (NotImplementedError unsupported_msg).

(** ** What a result cell should hold

    The comparator the matching function stands for, when it names one. *)
Definition matcher (env : StaticEnvironment) : option (cell → cell → bool) :=
  match matching_function env with
  | MFName name =>
      if decide (name = "exact") then Some py_eq
      else if decide (name = "fuzzy") then
        Some (λ g p, Qle_bool (matching_threshold env) (similarity g p))
      else None
  | MFCallable f => Some f
  end.

(** The sentence for a match [b] and a ground-truth value [g]. *)
Definition sentence (b : bool) (g : cell) : cell :=
  if b then Str correct_msg else Str (incorrect_msg (py_str g)).

(** The match and the feedback for a ground-truth value [g] and a
    prediction [p] under the comparator [c]. *)
Definition match_cell (c : cell → cell → bool) (g p : cell) : cell :=
  if notnull g && notnull p then Bool (c g p) else NaN.

Definition feedback_cell (c : cell → cell → bool) (g p : cell) : cell :=
  if notnull g && notnull p then sentence (c g p) g else NaN.

(** The rows that pass the filter of line 80, for two series that hold
    [F r] and [G r] at row [r]. *)
Definition both_notnull (F G : Z → cell) (r : Z) : Prop :=
  notnull (F r) && notnull (G r) = true.

#[global] Instance both_notnull_dec F G r : Decision (both_notnull F G r).
Proof. unfold both_notnull. apply _. Defined.

(** The keys of a dictionary after the assignments [d[c] = ...] for the
    [c] of [cols], in this order: a key that is new goes last. *)
Fixpoint add_keys (cols keys : list string) : list string :=
  match cols with
  | [] => keys
  | c :: rest => add_keys rest (if decide (c ∈ keys) then keys else keys ++ [c])
  end.

(** ** Example tables

    The ground truth has one column; the predictions have a column with
    ground truth ([label]) and one without ([color]); row 4 has a null
    ground truth, row 7 has no ground truth and a null [label]. *)
Definition ex_reference : DataFrame :=
  {| df_columns := ["label"];
     df_rows := [(1, [Str "cat"]); (2, [Str "dog"]); (3, [Str "emu"]); (4, [NaN])] |}.

Definition ex_predictions : DataFrame :=
  {| df_columns := ["label"; "color"];
     df_rows := [(1, [Str "cat"; Str "red"]); (2, [Str "doge"; Str "blue"]);
                 (4, [Str "owl"; NaN]); (7, [NaN; Str "green"])] |}.

Definition ex_env (mf : MatchingFunction) : StaticEnvironment :=
  {| df := ex_reference;
     ground_truth_columns := ∅;
     matching_function := mf;
     matching_threshold := 9 # 10 |}.

Definition ex_similarity (g p : cell) : Q := if py_eq g p then 1%Q else 0%Q.

(** What [get_feedback] returns on the example under the exact policy. *)
Definition ex_feedback : EnvironmentFeedback :=
  {| fb_match :=
       {| df_columns := ["label"; "color"];
          df_rows := [(1, [Bool true; NaN]); (2, [Bool false; NaN]);
                      (4, [NaN; NaN]); (7, [NaN; NaN])] |};
     fb_feedback :=
       {| df_columns := ["label"; "color"];
          df_rows := [(1, [Str correct_msg; NaN]);
                      (2, [Str (incorrect_msg "dog"); NaN]);
                      (4, [NaN; NaN]); (7, [NaN; NaN])] |} |}.

(** The same call on the [color] column alone: nothing is known. *)
Definition ex_feedback_color : EnvironmentFeedback :=
  {| fb_match :=
       {| df_columns := ["color"];
          df_rows := [(1, [NaN]); (2, [NaN]); (4, [NaN]); (7, [NaN])] |};
     fb_feedback :=
       {| df_columns := ["color"];
          df_rows := [(1, [NaN]); (2, [NaN]); (4, [NaN]); (7, [NaN])] |} |}.

(** The two [label] columns of the example after [align]. *)
Definition ex_gt_aligned : Series :=
  [(1, Str "cat"); (2, Str "dog"); (3, Str "emu"); (4, NaN); (7, NaN)].

Definition ex_pred_aligned : Series :=
  [(1, Str "cat"); (2, Str "doge"); (3, NaN); (4, Str "owl"); (7, NaN)].

(** A lenient comparator: the prediction may continue the ground truth. *)
Definition ex_lenient (g p : cell) : bool :=
  match g, p with
  | Str s, Str t => String.prefix s t
  | _, _ => false
  end.

(** The same comparator, made to accept null values. *)
Definition ex_lenient_null (g p : cell) : bool :=
  match g, p with
  | NaN, _ | _, NaN => true
  | _, _ => ex_lenient g p
  end.

(** The ground truth without row 3, which the predictions do not have. *)
Definition ex_reference_small : DataFrame :=
  {| df_columns := ["label"];
     df_rows := [(4, [NaN]); (2, [Str "dog"]); (1, [Str "cat"])] |}.



(** What [get_feedback] returns on the example under [ex_lenient]. *)
Definition ex_feedback_lenient : EnvironmentFeedback :=
  {| fb_match :=
       {| df_columns := ["label"; "color"];
          df_rows := [(1, [Bool true; NaN]); (2, [Bool true; NaN]);
                      (4, [NaN; NaN]); (7, [NaN; NaN])] |};
     fb_feedback :=
       {| df_columns := ["label"; "color"];
          df_rows := [(1, [Str correct_msg; NaN]); (2, [Str correct_msg; NaN]);
                      (4, [NaN; NaN]); (7, [NaN; NaN])] |} |}.

(** What it returns under the exact policy for two feedbacks, when the
    random generator yields 3 and 1. *)
Definition ex_feedback_sampled : EnvironmentFeedback :=
  {| fb_match :=
       {| df_columns := ["label"; "color"];
          df_rows := [(7, [NaN; NaN]); (2, [Bool false; NaN])] |};
     fb_feedback :=
       {| df_columns := ["label"; "color"];
          df_rows := [(7, [NaN; NaN]); (2, [Str (incorrect_msg "dog"); NaN])] |} |}.

(** The batch of size 4 of the ground truth, for the same generator. *)
Definition ex_batch : DataFrame :=
  {| df_columns := ["label"];
     df_rows := [(4, [NaN]); (2, [Str "dog"]); (1, [Str "cat"]); (3, [Str "emu"])] |}.

(** ** Facts about the embedded pandas operations *)

Lemma bind_Ok {A B} (m : result A) (k : A → result B) (b : B) :
  m ≫= k = Ok b → ∃ a, m = Ok a ∧ k a = Ok b.
Proof. destruct m as [a|e]; cbn; intros H; [eauto | discriminate]. Qed.

Lemma bind_Raise {A B} (m : result A) (k : A → result B) (e : exception) :
  m ≫= k = Raise e → m = Raise e ∨ ∃ a, m = Ok a ∧ k a = Raise e.
Proof. destruct m as [a|e']; cbn; intros H; [right; eauto | left; congruence]. Qed.

Lemma position_None c cols : position c cols = None ↔ c ∉ cols.
Proof.
  induction cols as [|c' cols IH]; simpl.
  - split; [intros _; apply not_elem_of_nil | done].
  - rewrite not_elem_of_cons. case_decide as Hc.
    + split; [done | intros [? _]; congruence].
    + destruct (position c cols); simpl.
      * split; [done | intros [_ Hn]; by apply IH in Hn].
      * split; [intros _; split; [congruence | by apply IH] | done].
Qed.

Lemma position_is_Some c cols : c ∈ cols → is_Some (position c cols).
Proof.
  intros Hin. destruct (position c cols) eqn:E; [eauto |].
  by apply position_None in E.
Qed.

Lemma position_lt c cols j :
  position c cols = Some j → (j < length cols)%nat.
Proof.
  revert j. induction cols as [|c' cols IH]; intros j; simpl; [done |].
  case_decide.
  - intros [= <-]. lia.
  - destruct (position c cols) as [i|]; simpl; [|done].
    intros [= <-]. specialize (IH i eq_refl). lia.
Qed.

Lemma series_get_fmap (F : Z → cell) (idx : list Z) (r : Z) :
  series_get r ((λ x, (x, F x)) <$> idx) = if decide (r ∈ idx) then F r else NaN.
Proof.
  induction idx as [|x idx IH]; [done |].
  rewrite fmap_cons. cbn [series_get].
  destruct (decide (x = r)) as [->|Hx].
  - rewrite decide_True; [done | left].
  - rewrite IH. destruct (decide (r ∈ idx)) as [Hin|Hin].
    + rewrite decide_True; [done | by right].
    + rewrite decide_False; [done |].
      rewrite elem_of_cons. intros [?|?]; congruence.
Qed.

Lemma series_get_notin (r : Z) (s : Series) :
  r ∉ s_index s → series_get r s = NaN.
Proof.
  induction s as [|[l v] s IH]; simpl; [done |].
  rewrite not_elem_of_cons. intros [Hne Hn].
  rewrite decide_False; [by apply IH | congruence].
Qed.

Lemma series_get_const (r : Z) (idx : list Z) :
  series_get r (series_const NaN idx) = NaN.
Proof.
  unfold series_const. rewrite (series_get_fmap (λ _, NaN)). by case_decide.
Qed.

Lemma series_reindex_index (s : Series) (idx : list Z) :
  s_index (series_reindex s idx) = idx.
Proof.
  unfold s_index, series_reindex.
  induction idx as [|x idx IH]; csimpl; [done | by rewrite IH].
Qed.

(** On unique labels, reindexing a series on its own index changes
    nothing. *)
Lemma series_reindex_self (s : Series) :
  NoDup (s_index s) → series_reindex s (s_index s) = s.
Proof.
  unfold series_reindex, s_index.
  induction s as [|[l v] s IH]; simpl; [done |].
  rewrite NoDup_cons. intros [Hl Hnd].
  rewrite decide_True by done. f_equal.
  rewrite <-(IH Hnd) at 2.
  apply list_fmap_ext. intros i x Hx. f_equal.
  rewrite decide_False; [done |].
  intros ->. apply Hl. by eapply list_elem_of_lookup_2.
Qed.

Lemma df_getitem_index (d : DataFrame) (c : string) (s : Series) :
  df_getitem d c = Ok s → s_index s = df_index d.
Proof.
  unfold df_getitem. destruct (position c (df_columns d)); [|done].
  intros [= <-]. unfold s_index, df_index.
  induction (df_rows d) as [|row rows IH]; csimpl; [done | by rewrite IH].
Qed.

Lemma df_getitem_missing (d : DataFrame) (c : string) :
  c ∉ df_columns d → df_getitem d c = Raise (KeyError c).
Proof.
  intros Hc. unfold df_getitem. by apply position_None in Hc as ->.
Qed.

Lemma df_getitem_present (d : DataFrame) (c : string) :
  c ∈ df_columns d → returns (df_getitem d c).
Proof.
  intros Hc. unfold df_getitem, returns.
  destruct (position_is_Some _ _ Hc) as [j ->]. eauto.
Qed.

Lemma df_getitem_Ok_columns (d : DataFrame) (c : string) (s : Series) :
  df_getitem d c = Ok s → c ∈ df_columns d.
Proof.
  unfold df_getitem. destruct (position c (df_columns d)) eqn:E; [|done].
  intros _. destruct (decide (c ∈ df_columns d)) as [|Hn]; [done |].
  apply position_None in Hn. congruence.
Qed.

(** The column [d[c]] holds at label [r] the cell of the frame at [r] and
    [c], null when the frame has no row [r]. *)
Lemma df_getitem_get (d : DataFrame) (c : string) (s : Series) (r : Z) :
  df_getitem d c = Ok s → series_get r s = default NaN (df_at d r c).
Proof.
  unfold df_getitem, df_at.
  destruct (position c (df_columns d)) as [j|]; [|done].
  intros [= <-]. induction (df_rows d) as [|[l cs] rows IH]; simpl; [done |].
  case_decide; [done | apply IH].
Qed.

(** *** The joined index *)

Lemma insert_sorted_elem (x y : Z) (l : list Z) :
  x ∈ insert_sorted y l ↔ x = y ∨ x ∈ l.
Proof.
  induction l as [|z l IH]; simpl.
  - rewrite list_elem_of_singleton, elem_of_nil. tauto.
  - repeat case_decide; subst; rewrite ?elem_of_cons, ?IH; tauto.
Qed.

Lemma sort_unique_elem (x : Z) (l : list Z) : x ∈ sort_unique l ↔ x ∈ l.
Proof.
  induction l as [|y l IH]; simpl; [done |].
  by rewrite insert_sorted_elem, IH, elem_of_cons.
Qed.

Lemma union_indexes_elem (x : Z) (idxs : list (list Z)) :
  x ∈ union_indexes idxs ↔ ∃ i, i ∈ idxs ∧ x ∈ i.
Proof.
  destruct idxs as [|i rest]; simpl.
  - split; [by intros ?%elem_of_nil | by intros (i & ?%elem_of_nil & _)].
  - case_bool_decide as Hall.
    + split; [intros Hx; exists i; split; [left | done] |].
      intros (j & Hj & Hx). apply elem_of_cons in Hj as [->|Hj]; [done |].
      rewrite Forall_forall in Hall. by rewrite <-(Hall j Hj).
    + change (i ++ concat rest) with (concat (i :: rest)).
      rewrite sort_unique_elem, list_elem_of_In, in_concat.
      split; intros (j & Hj & Hx); exists j; split; by apply list_elem_of_In.
Qed.

Lemma union_indexes_same (i : list Z) : union_indexes [i; i] = i.
Proof.
  simpl. rewrite bool_decide_eq_true_2; [done |].
  by repeat constructor.
Qed.

(** On unique labels, both sides of [align] are the reindexing of the two
    series on one joined index, which holds the labels of either. *)
Lemma series_align_spec (a b : Series) :
  NoDup (s_index a) → NoDup (s_index b) →
  ∃ idx, series_align a b = (series_reindex a idx, series_reindex b idx)
         ∧ ∀ r, r ∈ idx ↔ r ∈ s_index a ∨ r ∈ s_index b.
Proof.
  intros Ha Hb. unfold series_align. case_decide as Heq.
  - exists (s_index a). split.
    + rewrite (series_reindex_self a Ha).
      rewrite Heq. by rewrite (series_reindex_self b Hb).
    + intros r. rewrite <-Heq. tauto.
  - eexists. split; [done |]. intros r. rewrite union_indexes_elem.
    split.
    + intros (i & Hi & Hr). rewrite !elem_of_cons, elem_of_nil in Hi.
      destruct Hi as [->|[->|[]]]; tauto.
    + intros [Hr|Hr]; eexists; (split; [|exact Hr]).
      * left.
      * right; left.
Qed.

(** *** Masks and row-wise combination of series on a shared index *)

Section SharedIndex.

Variables F G : Z → cell.

Lemma mask_shared (idx : list Z) :
  mask_and (series_notnull ((λ r, (r, F r)) <$> idx))
           (series_notnull ((λ r, (r, G r)) <$> idx))
  = (λ r, (r, notnull (F r) && notnull (G r))) <$> idx.
Proof.
  unfold mask_and, series_notnull.
  induction idx as [|r idx IH]; csimpl; [done | by rewrite IH].
Qed.

Lemma series_mask_shared (H : Z → cell) (idx : list Z) :
  series_mask ((λ r, (r, H r)) <$> idx)
    ((λ r, (r, notnull (F r) && notnull (G r))) <$> idx)
  = (λ r, (r, H r)) <$> filter (both_notnull F G) idx.
Proof.
  unfold series_mask.
  induction idx as [|r idx IH]; csimpl; [done |].
  rewrite !filter_cons.
  destruct (decide (both_notnull F G r)) as [Hk|Hk].
  - rewrite decide_True by exact Hk. csimpl. by rewrite IH.
  - rewrite decide_False by exact Hk. apply IH.
Qed.

Lemma series_combine_shared (f : cell → cell → cell) (idx : list Z) :
  series_combine f ((λ r, (r, F r)) <$> idx) ((λ r, (r, G r)) <$> idx)
  = (λ r, (r, f (F r) (G r))) <$> idx.
Proof.
  unfold series_combine.
  induction idx as [|r idx IH]; csimpl; [done | by rewrite IH].
Qed.

End SharedIndex.

(** *** Dictionaries and the assembled frames *)

Lemma dict_get_set_eq {V} (k : string) (v : V) (d : list (string * V)) :
  dict_get k (dict_set k v d) = Some v.
Proof.
  induction d as [|[k' v'] d IH]; simpl.
  - by rewrite decide_True.
  - destruct (decide (k' = k)) as [->|Hne]; simpl.
    + by rewrite decide_True.
    + by rewrite decide_False.
Qed.

Lemma dict_get_set_ne {V} (k k' : string) (v : V) (d : list (string * V)) :
  k ≠ k' → dict_get k' (dict_set k v d) = dict_get k' d.
Proof.
  intros Hne. induction d as [|[k0 v0] d IH]; simpl.
  - by rewrite decide_False.
  - destruct (decide (k0 = k)) as [->|Hk0]; simpl.
    + by rewrite !decide_False.
    + destruct (decide (k0 = k')); [done | apply IH].
Qed.

Lemma dict_get_elem {V} (k : string) (v : V) (d : list (string * V)) :
  dict_get k d = Some v → (k, v) ∈ d.
Proof.
  induction d as [|[k' v'] d IH]; simpl; [done |].
  destruct (decide (k' = k)) as [->|Hne].
  - intros [= ->]. left.
  - intros H. right. by apply IH.
Qed.

Lemma row_lookup_fmap (G : Z → list cell) (idx : list Z) (r : Z) :
  row_lookup r ((λ x, (x, G x)) <$> idx)
  = if decide (r ∈ idx) then Some (G r) else None.
Proof.
  induction idx as [|x idx IH]; [done |].
  rewrite fmap_cons. cbn [row_lookup].
  destruct (decide (x = r)) as [->|Hx].
  - rewrite decide_True; [done | left].
  - rewrite IH. destruct (decide (r ∈ idx)) as [Hin|Hin].
    + rewrite decide_True; [done | by right].
    + rewrite decide_False; [done |].
      rewrite elem_of_cons. intros [?|?]; congruence.
Qed.

Lemma df_reindex_index (d : DataFrame) (idx : list Z) :
  df_index (df_reindex d idx) = idx.
Proof.
  unfold df_index, df_reindex. simpl.
  induction idx as [|x idx IH]; csimpl; [done | by rewrite IH].
Qed.

Lemma df_reindex_columns (d : DataFrame) (idx : list Z) :
  df_columns (df_reindex d idx) = df_columns d.
Proof. done. Qed.

(** The column of a key sits, in every row of the frame, at the position
    of the key among the column names. *)
Lemma dict_cell (f : string) (s : Series) (d : list (string * Series)) :
  dict_get f d = Some s →
  ∃ j, position f d.*1 = Some j
       ∧ ∀ r, ((λ c, series_get r c.2) <$> d) !! j = Some (series_get r s).
Proof.
  induction d as [|[k v] d IH]; [done |].
  cbn [dict_get]. rewrite fmap_cons. cbn [position fst].
  destruct (decide (k = f)) as [->|Hne].
  - intros [= ->]. by exists 0%nat.
  - intros Hget. destruct (IH Hget) as (j & Hj & Hrow).
    exists (S j). split; [by rewrite Hj | intros r; apply Hrow].
Qed.

Lemma dict_index_subset (f : string) (s : Series) (d : list (string * Series)) (r : Z) :
  dict_get f d = Some s → r ∈ s_index s →
  r ∈ union_indexes ((λ c, s_index c.2) <$> d).
Proof.
  intros Hget Hr. apply union_indexes_elem. exists (s_index s).
  split; [|done]. apply dict_get_elem in Hget.
  apply list_elem_of_fmap. by exists (f, s).
Qed.

(** A cell of [InternalDataFrame(dict).reindex(idx)]: the value of the
    column's series at the row label, null when the series has no such
    row. *)
Lemma df_at_assembled (d : list (string * Series)) (idx : list Z)
    (f : string) (s : Series) (r : Z) :
  dict_get f d = Some s → r ∈ idx →
  df_at (df_reindex (frame_of_series d) idx) r f = Some (series_get r s).
Proof.
  intros Hget Hr. destruct (dict_cell _ _ _ Hget) as (j & Hj & Hrow).
  unfold df_at, df_reindex. cbn [df_rows df_columns frame_of_series].
  rewrite (row_lookup_fmap (λ x, default _ (row_lookup x _))).
  rewrite decide_True by done. cbn. rewrite Hj. cbn.
  rewrite (row_lookup_fmap (λ x, (λ c, series_get x c.2) <$> d)).
  case_decide as Hin; cbn.
  - apply Hrow.
  - rewrite lookup_replicate_2.
    + f_equal. symmetry. apply series_get_notin.
      intros Hs. apply Hin. by eapply dict_index_subset.
    + by apply position_lt in Hj.
Qed.

(** *** The loop *)

Lemma feedback_loop_spec env predictions cols pm0 pf0 pm pf :
  feedback_loop env predictions cols pm0 pf0 = Ok (pm, pf) →
  ∀ c,
    (c ∈ cols →
       ∃ m f, field_feedback env predictions c = Ok (m, f)
              ∧ dict_get c pm = Some m ∧ dict_get c pf = Some f)
    ∧ (c ∉ cols → dict_get c pm = dict_get c pm0 ∧ dict_get c pf = dict_get c pf0).
Proof.
  revert pm0 pf0. induction cols as [|c0 cols IH]; intros pm0 pf0; simpl.
  - intros [= <- <-] c. split; [by intros ?%elem_of_nil | done].
  - intros Hloop. apply bind_Ok in Hloop as ([m f] & Hfield & Hloop).
    simpl in Hloop. intros c. specialize (IH _ _ Hloop c) as [IHin IHout].
    destruct (decide (c ∈ cols)) as [Hc|Hc].
    + split; [intros _; by apply IHin |].
      rewrite not_elem_of_cons. tauto.
    + destruct (IHout Hc) as [Hm Hf]. split.
      * intros [->|?]%elem_of_cons; [|done].
        exists m, f. by rewrite Hm, Hf, !dict_get_set_eq.
      * rewrite not_elem_of_cons. intros [Hne _].
        rewrite Hm, Hf. by rewrite !dict_get_set_ne.
Qed.

Lemma feedback_loop_returns env predictions cols pm0 pf0 :
  Forall (λ c, returns (field_feedback env predictions c)) cols →
  returns (feedback_loop env predictions cols pm0 pf0).
Proof.
  intros Hall. revert pm0 pf0.
  induction Hall as [|c cols [mf Hc] _ IH]; intros pm0 pf0; simpl.
  - by eexists.
  - rewrite Hc. cbn. apply IH.
Qed.


(** *** Sampling *)

Lemma draw_submseteq {A} (rng : list nat) (n : nat) (pool : list A) :
  draw rng n pool ⊆+ pool.
Proof.
  revert rng pool. induction n as [|n IH]; intros rng pool; simpl.
  - apply submseteq_nil_l.
  - destruct (pool !! _) as [x|] eqn:E; [|apply submseteq_nil_l].
    etrans; [apply submseteq_skip, IH |].
    apply Permutation_submseteq. symmetry. by apply delete_Permutation.
Qed.

Lemma draw_length {A} (rng : list nat) (n : nat) (pool : list A) :
  (n ≤ length pool)%nat → length (draw rng n pool) = n.
Proof.
  revert rng pool. induction n as [|n IH]; intros rng pool Hn; simpl; [done |].
  destruct (lookup_lt_is_Some_2 pool (hd 0%nat rng `mod` length pool)) as [x Hx].
  { apply Nat.mod_upper_bound. lia. }
  rewrite Hx. simpl. f_equal. apply IH.
  rewrite length_delete by eauto. lia.
Qed.

Lemma df_sample_Ok (rng : list nat) (n : Z) (d p : DataFrame) :
  df_sample rng n d = Ok p →
  df_columns p = df_columns d ∧ df_rows p ⊆+ df_rows d
  ∧ Z.of_nat (length (df_rows p)) = n.
Proof.
  unfold df_sample. repeat case_decide; try done.
  intros [= <-]. simpl. split_and!; [done | apply draw_submseteq |].
  rewrite draw_length; lia.
Qed.

Lemma sample_predictions_Ok rng predictions num_feedbacks p :
  sample_predictions rng predictions num_feedbacks = Ok p →
  df_columns p = df_columns predictions ∧ df_rows p ⊆+ df_rows predictions.
Proof.
  destruct num_feedbacks as [n|]; simpl.
  - intros H. apply df_sample_Ok in H. tauto.
  - by intros [= <-].
Qed.

Lemma submseteq_index_NoDup (rows rows' : list (Z * list cell)) :
  rows' ⊆+ rows → NoDup rows.*1 → NoDup rows'.*1.
Proof.
  intros Hsub Hnd.
  assert (rows'.*1 ⊆+ rows.*1) as Hsub' by by apply fmap_submseteq.
  apply submseteq_Permutation in Hsub' as [k Hk].
  rewrite Hk in Hnd. by apply NoDup_app in Hnd as [? _].
Qed.

Lemma sample_predictions_NoDup rng predictions num_feedbacks p :
  sample_predictions rng predictions num_feedbacks = Ok p →
  NoDup (df_index predictions) → NoDup (df_index p).
Proof.
  intros Hs. apply sample_predictions_Ok in Hs as [_ Hsub].
  by apply submseteq_index_NoDup.
Qed.

(** *** The sentences *)

Lemma feedback_of_row_bool (gt_column : string) (b : bool) (g : cell) :
  gt_column ≠ "match" →
  feedback_of_row gt_column [("match", Bool b); (gt_column, g)] = Ok (sentence b g).
Proof.
  intros Hne. unfold feedback_of_row, row_getitem.
  rewrite !filter_cons, filter_nil. simpl.
  rewrite (decide_False (P := gt_column = "match")) by done. simpl.
  destruct b; simpl; [done |].
  rewrite (decide_False (P := "match" = gt_column)) by done.
  by rewrite decide_True.
Qed.

Lemma feedback_of_row_collision (m g : cell) :
  feedback_of_row "match" [("match", m); ("match", g)]
  = Raise (ValueError ambiguous_msg).
Proof. done. Qed.

Lemma incorrect_msg_neq (answer : string) : incorrect_msg answer ≠ correct_msg.
Proof. unfold incorrect_msg, correct_msg. simpl. discriminate. Qed.

Lemma s_index_lab (H : Z → cell) (idx : list Z) :
  s_index ((λ r, (r, H r)) <$> idx) = idx.
Proof.
  unfold s_index. induction idx as [|x idx IH]; csimpl; [done | by rewrite IH].
Qed.

(** The feedback column of [match_concat], when [apply] returns. *)
Lemma df_apply_rows_concat (gt_column : string) (c : Z → bool) (A : Z → cell)
    (idx : list Z) (fbk : Series) :
  df_apply_rows (feedback_of_row gt_column)
    (frame_of_series [("match", (λ r, (r, Bool (c r))) <$> idx);
                      (gt_column, (λ r, (r, A r)) <$> idx)]) = Ok fbk →
  fbk = (λ r, (r, sentence (c r) (A r))) <$> idx.
Proof.
  unfold df_apply_rows, frame_of_series. cbn [df_columns df_rows].
  rewrite !fmap_cons, fmap_nil. cbn [snd fst].
  rewrite (s_index_lab (λ r, Bool (c r))), (s_index_lab A), union_indexes_same.
  assert (∀ l, l ⊆ idx →
    ((λ r, (r, (λ c0 : string * Series, series_get r c0.2) <$>
         [("match", (λ r0, (r0, Bool (c r0))) <$> idx);
          (gt_column, (λ r0, (r0, A r0)) <$> idx)])) <$> l)
    = (λ r, (r, [Bool (c r); A r])) <$> l) as Hrows.
  { intros l Hl. apply list_fmap_ext. intros i r Hr. f_equal.
    assert (r ∈ idx) as Hin by (apply Hl; by eapply list_elem_of_lookup_2).
    csimpl. rewrite (series_get_fmap (λ r, Bool (c r))), (series_get_fmap A).
    by rewrite !decide_True. }
  rewrite (Hrows idx) by done. clear Hrows.
  destruct (decide (gt_column = "match")) as [->|Hne].
  - destruct idx as [|r idx]; [by intros [= <-] | done].
  - revert fbk. induction idx as [|r idx IH]; intros fbk; csimpl.
    + by intros [= <-].
    + rewrite feedback_of_row_bool by done. cbn.
      intros H. apply bind_Ok in H as (k & Hk & [= <-]).
      by rewrite (IH k Hk).
Qed.

(** *** One skill output *)

Lemma compare_matcher env gt pred :
  compare env gt pred =
  match matcher env with
  | Some c => Ok (series_combine (λ g p, Bool (c g p)) gt pred)
  | None =>
      match matching_function env with
      | MFName name => Raise (NotImplementedError (unknown_matching_msg name))
      | MFCallable _ => Ok []
      end
  end.
Proof.
  unfold compare, matcher. destruct (matching_function env) as [name|f]; [|done].
  by repeat case_decide.
Qed.

Lemma field_feedback_missing env predictions c :
  c ∉ df_columns predictions →
  field_feedback env predictions c = Raise (KeyError c).
Proof.
  intros Hc. unfold field_feedback.
  by rewrite (df_getitem_missing predictions c) by done.
Qed.

Lemma field_feedback_absent env predictions c :
  c ∈ df_columns predictions →
  gt_column_of env c ∉ df_columns (df env) →
  field_feedback env predictions c
  = Ok (series_const NaN (df_index predictions),
        series_const NaN (df_index predictions)).
Proof.
  intros Hc Hgt. unfold field_feedback.
  destruct (df_getitem_present _ _ Hc) as [pred Hpred]. rewrite Hpred. cbn.
  rewrite bool_decide_eq_true_2 by done.
  by rewrite (df_getitem_index _ _ _ Hpred).
Qed.

(** The field reaches the comparison: on unique labels, the two series of
    the field hold, at every row of the predictions, the match and the
    sentence of the ground-truth value and the prediction of that row. *)
Lemma field_feedback_present env predictions c m f :
  NoDup (df_index (df env)) → NoDup (df_index predictions) →
  gt_column_of env c ∈ df_columns (df env) →
  field_feedback env predictions c = Ok (m, f) →
  ∃ gt pred cmp,
    df_getitem (df env) (gt_column_of env c) = Ok gt
    ∧ df_getitem predictions c = Ok pred
    ∧ matcher env = Some cmp
    ∧ ∀ r, r ∈ df_index predictions →
        series_get r m = match_cell cmp (series_get r gt) (series_get r pred)
        ∧ series_get r f = feedback_cell cmp (series_get r gt) (series_get r pred).
Proof.
  intros Hnd_df Hnd_p Hgt. unfold field_feedback. intros Hfield.
  apply bind_Ok in Hfield as (pred & Hpred & Hfield).
  rewrite bool_decide_eq_false_2 in Hfield by (intros Hn; by apply Hn).
  apply bind_Ok in Hfield as (gt & Hgtcol & Hfield).
  exists gt, pred.
  destruct (series_align_spec gt pred) as (idx & Halign & Hidx).
  { by rewrite (df_getitem_index _ _ _ Hgtcol). }
  { by rewrite (df_getitem_index _ _ _ Hpred). }
  rewrite Halign in Hfield. cbv beta iota zeta in Hfield.
  unfold series_reindex in Hfield.
  rewrite mask_shared, !series_mask_shared in Hfield.
  rewrite compare_matcher in Hfield.
  destruct (matcher env) as [cmp|] eqn:Hcmp.
  2:{ destruct (matching_function env) eqn:Hmf; [done |].
      unfold matcher in Hcmp. by rewrite Hmf in Hcmp. }
  exists cmp. split_and!; [done.. |].
  cbn in Hfield. rewrite series_combine_shared in Hfield.
  apply bind_Ok in Hfield as (fbk & Hfbk & [= <- <-]).
  apply df_apply_rows_concat in Hfbk as ->.
  intros r Hr.
  assert (r ∈ idx) as Hin.
  { apply Hidx. right. by rewrite (df_getitem_index _ _ _ Hpred). }
  rewrite (series_get_fmap (λ r, Bool (cmp (series_get r gt) (series_get r pred)))).
  rewrite (series_get_fmap (λ r, sentence (cmp (series_get r gt) (series_get r pred))
                                   (series_get r gt))).
  unfold match_cell, feedback_cell.
  destruct (notnull (series_get r gt) && notnull (series_get r pred)) eqn:E.
  - rewrite !decide_True; [done | |]; apply list_elem_of_filter; by split.
  - rewrite !decide_False; [done | |];
      rewrite list_elem_of_filter; unfold both_notnull; intros [? _]; congruence.
Qed.

(** After [align], the two series hold at a row of the predictions what
    they held before, null where the ground truth has no such row. *)
Lemma series_align_get (gt pred gt' pred' : Series) (r : Z) :
  NoDup (s_index gt) → NoDup (s_index pred) →
  series_align gt pred = (gt', pred') → r ∈ s_index pred →
  series_get r gt' = series_get r gt ∧ series_get r pred' = series_get r pred.
Proof.
  intros Hg Hp Halign Hr.
  destruct (series_align_spec gt pred Hg Hp) as (idx & Heq & Hidx).
  rewrite Heq in Halign. injection Halign as <- <-.
  unfold series_reindex.
  rewrite (series_get_fmap (λ r, series_get r gt)),
          (series_get_fmap (λ r, series_get r pred)).
  rewrite !decide_True; [done | |]; apply Hidx; by right.
Qed.

(** *** The whole call *)

Lemma get_feedback_Ok env rng skills predictions num_feedbacks fb :
  get_feedback env rng skills predictions num_feedbacks = Ok fb →
  ∃ p pm pf,
    sample_predictions rng predictions num_feedbacks = Ok p
    ∧ feedback_loop env p skills [] [] = Ok (pm, pf)
    ∧ fb = {| fb_match := df_reindex (frame_of_series pm) (df_index p);
              fb_feedback := df_reindex (frame_of_series pf) (df_index p) |}.
Proof.
  unfold get_feedback. intros H.
  apply bind_Ok in H as (p & Hp & H).
  apply bind_Ok in H as ([pm pf] & Hloop & [= <-]).
  by exists p, pm, pf.
Qed.

(** The cells of the result are the values of the series the loop
    computed for the field. *)
Lemma get_feedback_cells env rng skills predictions num_feedbacks fb p :
  get_feedback env rng skills predictions num_feedbacks = Ok fb →
  sample_predictions rng predictions num_feedbacks = Ok p →
  ∀ c, c ∈ skills →
    ∃ m f, field_feedback env p c = Ok (m, f)
      ∧ ∀ r, r ∈ df_index p →
          df_at (fb_match fb) r c = Some (series_get r m)
          ∧ df_at (fb_feedback fb) r c = Some (series_get r f).
Proof.
  intros Hfb Hp c Hc.
  apply get_feedback_Ok in Hfb as (p' & pm & pf & Hp' & Hloop & ->).
  assert (p' = p) as -> by congruence.
  destruct (feedback_loop_spec _ _ _ _ _ _ _ Hloop c) as [Hin _].
  destruct (Hin Hc) as (m & f & Hfield & Hm & Hf).
  exists m, f. split; [done |]. intros r Hr. cbn [fb_match fb_feedback].
  split; by apply df_at_assembled.
Qed.

Lemma ex_check_exact :
  get_feedback (ex_env (MFName "exact")) [] ["label"; "color"] ex_predictions None
  = Ok ex_feedback.
Proof. vm_compute. reflexivity. Qed.

Lemma ex_check_color :
  get_feedback (ex_env (MFName "regex")) [] ["color"] ex_predictions None
  = Ok ex_feedback_color.
Proof. vm_compute. reflexivity. Qed.

(** Every cell of the result, on unique labels: unknown in both tables when
    the field has no ground-truth column, otherwise the match and the
    sentence of the ground-truth cell and the predicted cell of the row. *)
Lemma result_cells env rng skills predictions num_feedbacks fb p f r :
  NoDup (df_index (df env)) → NoDup (df_index predictions) →
  get_feedback env rng skills predictions num_feedbacks = Ok fb →
  sample_predictions rng predictions num_feedbacks = Ok p →
  f ∈ skills → r ∈ df_index p →
  ((gt_column_of env f ∉ df_columns (df env))
   ∧ df_at (fb_match fb) r f = Some NaN
   ∧ df_at (fb_feedback fb) r f = Some NaN)
  ∨ (gt_column_of env f ∈ df_columns (df env)
     ∧ ∃ cmp, matcher env = Some cmp
        ∧ df_at (fb_match fb) r f
          = Some (match_cell cmp (default NaN (df_at (df env) r (gt_column_of env f)))
                                 (default NaN (df_at p r f)))
        ∧ df_at (fb_feedback fb) r f
          = Some (feedback_cell cmp (default NaN (df_at (df env) r (gt_column_of env f)))
                                    (default NaN (df_at p r f)))).
Proof.
  intros Hnd_df Hnd_p Hfb Hp Hf Hr.
  destruct (get_feedback_cells _ _ _ _ _ _ _ Hfb Hp f Hf) as (m & fbk & Hfield & Hcells).
  destruct (Hcells r Hr) as [-> ->].
  assert (f ∈ df_columns p) as Hcol.
  { unfold field_feedback in Hfield.
    apply bind_Ok in Hfield as (pred & Hpred & _).
    by eapply df_getitem_Ok_columns. }
  destruct (decide (gt_column_of env f ∈ df_columns (df env))) as [Hgt|Hgt].
  - right. split; [done |].
    assert (NoDup (df_index p)) as Hnd by by eapply sample_predictions_NoDup.
    destruct (field_feedback_present _ _ _ _ _ Hnd_df Hnd Hgt Hfield)
      as (gt & pred & cmp & Hgtcol & Hpred & Hcmp & Hspec).
    exists cmp. split; [done |].
    destruct (Hspec r Hr) as [-> ->].
    by rewrite (df_getitem_get _ _ _ r Hgtcol), (df_getitem_get _ _ _ r Hpred).
  - left. split; [done |].
    rewrite (field_feedback_absent _ _ _ Hcol Hgt) in Hfield.
    injection Hfield as <- <-. by rewrite series_get_const.
Qed.

(** ** The claims *)

(** C1.  A field whose ground-truth column (the entry of the mapping, or
    the field's own name) is not in the ground-truth table: whenever the
    call returns, the match and the feedback of that field are unknown at
    every row of the predictions, whatever the predictions hold. *)
Theorem C1_absent_reference_column_unknown
    env rng skills predictions num_feedbacks fb p f r :
  get_feedback env rng skills predictions num_feedbacks = Ok fb →
  sample_predictions rng predictions num_feedbacks = Ok p →
  f ∈ skills →
  default f (ground_truth_columns env !! f) ∉ df_columns (df env) →
  r ∈ df_index p →
  df_at (fb_match fb) r f = Some NaN ∧ df_at (fb_feedback fb) r f = Some NaN.
Proof.
  intros Hfb Hp Hf Hgt Hr.
  destruct (get_feedback_cells _ _ _ _ _ _ _ Hfb Hp f Hf) as (m & fbk & Hfield & Hcells).
  destruct (Hcells r Hr) as [-> ->].
  assert (f ∈ df_columns p) as Hcol.
  { unfold field_feedback in Hfield.
    apply bind_Ok in Hfield as (pred & Hpred & _).
    by eapply df_getitem_Ok_columns. }
  rewrite (field_feedback_absent _ _ _ Hcol Hgt) in Hfield.
  injection Hfield as <- <-. by rewrite series_get_const.
Qed.

(** C2.  A field whose ground-truth column exists, and a row of the
    (possibly sampled) predictions at which, after the outer alignment of
    the two columns, the ground truth or the prediction is null: the match
    and the feedback of that field at that row are unknown. *)
Theorem C2_null_row_unknown
    env rng skills predictions num_feedbacks fb p f gt pred gt' pred' r :
  NoDup (df_index (df env)) → NoDup (df_index predictions) →
  get_feedback env rng skills predictions num_feedbacks = Ok fb →
  sample_predictions rng predictions num_feedbacks = Ok p →
  f ∈ skills →
  df_getitem (df env) (gt_column_of env f) = Ok gt →
  df_getitem p f = Ok pred →
  series_align gt pred = (gt', pred') →
  r ∈ df_index p →
  series_get r gt' = NaN ∨ series_get r pred' = NaN →
  df_at (fb_match fb) r f = Some NaN ∧ df_at (fb_feedback fb) r f = Some NaN.
Proof.
  intros Hnd_df Hnd_p Hfb Hp Hf Hgt Hpred Halign Hr Hnull.
  assert (NoDup (df_index p)) as Hnd by by eapply sample_predictions_NoDup.
  destruct (series_align_get gt pred gt' pred' r) as [Hg' Hp']; try done.
  { by rewrite (df_getitem_index _ _ _ Hgt). }
  { by rewrite (df_getitem_index _ _ _ Hpred). }
  { by rewrite (df_getitem_index _ _ _ Hpred). }
  rewrite Hg', Hp', (df_getitem_get _ _ _ r Hgt), (df_getitem_get _ _ _ r Hpred) in Hnull.
  destruct (result_cells _ _ _ _ _ _ _ f r Hnd_df Hnd_p Hfb Hp Hf Hr)
    as [(_ & -> & ->)|(_ & cmp & _ & -> & ->)]; [done |].
  unfold match_cell, feedback_cell.
  destruct Hnull as [-> | ->]; simpl; [done |].
  by rewrite andb_false_r.
Qed.

(** C3.  For every field and row of the result: the match is true iff
    the feedback is the sentence [Prediction is correct.]; the match is
    false iff the feedback is the sentence [Prediction is incorrect.
    Correct answer:] followed by the quoted ground-truth value of that
    row; the match is unknown iff the feedback is unknown.  A match is
    true, false or unknown. *)
Theorem C3_match_and_feedback_agree
    env rng skills predictions num_feedbacks fb p f r :
  NoDup (df_index (df env)) → NoDup (df_index predictions) →
  get_feedback env rng skills predictions num_feedbacks = Ok fb →
  sample_predictions rng predictions num_feedbacks = Ok p →
  f ∈ skills → r ∈ df_index p →
  (df_at (fb_match fb) r f = Some (Bool true)
     ↔ df_at (fb_feedback fb) r f = Some (Str "Prediction is correct."))
  ∧ (df_at (fb_match fb) r f = Some (Bool false)
     ↔ ∃ g, df_at (df env) r (gt_column_of env f) = Some g
          ∧ df_at (fb_feedback fb) r f
            = Some (Str ("Prediction is incorrect. Correct answer: "
                         +:+ dquote +:+ py_str g +:+ dquote)))
  ∧ (df_at (fb_match fb) r f = Some NaN ↔ df_at (fb_feedback fb) r f = Some NaN)
  ∧ (df_at (fb_match fb) r f = Some (Bool true)
     ∨ df_at (fb_match fb) r f = Some (Bool false)
     ∨ df_at (fb_match fb) r f = Some NaN).
Proof.
  intros Hnd_df Hnd_p Hfb Hp Hf Hr.
  change (Str "Prediction is correct.") with (Str correct_msg).
  assert (∀ g, Str ("Prediction is incorrect. Correct answer: "
                    +:+ dquote +:+ py_str g +:+ dquote)
               = Str (incorrect_msg (py_str g))) as Hmsg by done.
  setoid_rewrite Hmsg. clear Hmsg.
  assert (∀ x, Some (Str (incorrect_msg x)) ≠ Some (Str correct_msg)) as Hneq.
  { intros x Hx. apply (incorrect_msg_neq x). congruence. }
  destruct (result_cells _ _ _ _ _ _ _ f r Hnd_df Hnd_p Hfb Hp Hf Hr)
    as [(_ & -> & ->)|(_ & cmp & _ & -> & ->)].
  { split_and!; [done | | done | by right; right].
    split; [done | by intros (g & _ & ?)]. }
  unfold match_cell, feedback_cell, sentence.
  destruct (df_at (df env) r (gt_column_of env f)) as [g|] eqn:Hg; simpl.
  2:{ split_and!; [done | | done | by right; right].
      split; [done | by intros (g & ? & _)]. }
  destruct (notnull g && notnull (default NaN (df_at p r f))) eqn:Hnn.
  2:{ split_and!; [done | | done | by right; right].
      split; [done | by intros (g' & _ & ?)]. }
  destruct (cmp g (default NaN (df_at p r f))).
  - split_and!; [done | | done | by left].
    split; [done |]. intros (g' & _ & Hfbk). symmetry in Hfbk. by apply Hneq in Hfbk.
  - split_and!; [| | done | by right; left].
    + split; [done | by intros ?%Hneq].
    + split; [intros _; by exists g | done].
Qed.

(** C4.  Whenever the call returns, the rows of the match table and of the
    feedback table are the rows of the (possibly sampled) predictions, in
    the same order: none is added, none is dropped, whatever rows the
    ground-truth table has.  The sampled rows are rows of the predictions,
    each taken at most once; without sampling they are the predictions. *)
Theorem C4_row_index_of_predictions
    env rng skills predictions num_feedbacks fb :
  get_feedback env rng skills predictions num_feedbacks = Ok fb →
  ∃ p, sample_predictions rng predictions num_feedbacks = Ok p
       ∧ df_index (fb_match fb) = df_index p
       ∧ df_index (fb_feedback fb) = df_index p
       ∧ df_index p ⊆+ df_index predictions
       ∧ (num_feedbacks = None → p = predictions).
Proof.
  intros Hfb. apply get_feedback_Ok in Hfb as (p & pm & pf & Hp & _ & ->).
  exists p. cbn [fb_match fb_feedback]. rewrite !df_reindex_index.
  split_and!; [done.. | |].
  - apply sample_predictions_Ok in Hp as [_ Hsub].
    unfold df_index. by apply fmap_submseteq.
  - intros ->. simpl in Hp. congruence.
Qed.

Lemma py_eq_true_iff (g p : cell) :
  g ≠ NaN → p ≠ NaN → py_eq g p = true ↔ g = p.
Proof.
  intros Hg Hp. destruct g as [|s|b], p as [|t|c]; simpl; try done.
  - rewrite bool_decide_eq_true. split; congruence.
  - rewrite bool_decide_eq_true. split; congruence.
Qed.

(** C6.  Under the exact policy, at a row of the predictions where, after
    alignment, the ground truth and the prediction are both non-null: the
    match is true iff the two values are equal, and false iff they
    differ. *)
Theorem C6_exact_match_is_equality
    env rng skills predictions num_feedbacks fb p f gt pred gt' pred' r :
  NoDup (df_index (df env)) → NoDup (df_index predictions) →
  matching_function env = MFName "exact" →
  get_feedback env rng skills predictions num_feedbacks = Ok fb →
  sample_predictions rng predictions num_feedbacks = Ok p →
  f ∈ skills →
  df_getitem (df env) (gt_column_of env f) = Ok gt →
  df_getitem p f = Ok pred →
  series_align gt pred = (gt', pred') →
  r ∈ df_index p →
  series_get r gt' ≠ NaN → series_get r pred' ≠ NaN →
  (df_at (fb_match fb) r f = Some (Bool true) ↔ series_get r gt' = series_get r pred')
  ∧ (df_at (fb_match fb) r f = Some (Bool false) ↔ series_get r gt' ≠ series_get r pred').
Proof.
  intros Hnd_df Hnd_p Hexact Hfb Hp Hf Hgt Hpred Halign Hr Hgnn Hpnn.
  assert (NoDup (df_index p)) as Hnd by by eapply sample_predictions_NoDup.
  destruct (series_align_get gt pred gt' pred' r) as [Hg' Hp']; try done.
  { by rewrite (df_getitem_index _ _ _ Hgt). }
  { by rewrite (df_getitem_index _ _ _ Hpred). }
  { by rewrite (df_getitem_index _ _ _ Hpred). }
  rewrite Hg', Hp', (df_getitem_get _ _ _ r Hgt), (df_getitem_get _ _ _ r Hpred) in *.
  destruct (result_cells _ _ _ _ _ _ _ f r Hnd_df Hnd_p Hfb Hp Hf Hr)
    as [(Habs & _)|(_ & cmp & Hcmp & -> & _)].
  { exfalso. apply Habs. by eapply df_getitem_Ok_columns. }
  unfold matcher in Hcmp. rewrite Hexact in Hcmp. simpl in Hcmp.
  injection Hcmp as <-.
  set (g := default NaN (df_at (df env) r (gt_column_of env f))) in *.
  set (q := default NaN (df_at p r f)) in *.
  unfold match_cell.
  assert (notnull g && notnull q = true) as ->.
  { destruct g, q; done. }
  pose proof (py_eq_true_iff g q Hgnn Hpnn) as Heq.
  destruct (py_eq g q); split; split; try done.
  - intros _. by apply Heq.
  - intros Hne. exfalso. apply Hne. by apply Heq.
  - intros Hgq%Heq. discriminate.
  - intros _ Hgq%Heq. discriminate.
Qed.



Lemma feedback_loop_Raise_inv env predictions cols pm0 pf0 e :
  feedback_loop env predictions cols pm0 pf0 = Raise e →
  ∃ c, c ∈ cols ∧ field_feedback env predictions c = Raise e.
Proof.
  revert pm0 pf0. induction cols as [|c cols IH]; intros pm0 pf0; simpl; [done |].
  intros H. apply bind_Raise in H as [H|(mf & _ & H)].
  - exists c. split; [left | done].
  - destruct (IH _ _ H) as (c' & Hc' & Hraise).
    exists c'. split; [by right | done].
Qed.

Lemma sample_predictions_Raise rng predictions num_feedbacks e :
  sample_predictions rng predictions num_feedbacks = Raise e →
  ∃ msg, e = ValueError msg.
Proof.
  destruct num_feedbacks as [n|]; simpl; [|done].
  unfold df_sample. repeat case_decide; intros [= <-]; eauto.
Qed.

(** *** When the call returns *)









(** C8.  A sample size above the number of rows of the sampled table:
    [get_feedback] and [get_data_batch] raise the [ValueError] of the
    sampling and return nothing. *)
Theorem C8_sample_larger_than_table
    env rng skills predictions n :
  (Z.of_nat (length (df_rows predictions)) < n →
     get_feedback env rng skills predictions (Some n)
     = Raise (ValueError
         "Cannot take a larger sample than population when 'replace=False'"))
  ∧ (Z.of_nat (length (df_rows (df env))) < n →
     get_data_batch env rng (Some n)
     = Raise (ValueError
         "Cannot take a larger sample than population when 'replace=False'")).
Proof.
  split; intros Hn.
  - unfold get_feedback, sample_predictions, df_sample.
    rewrite decide_False by lia. by rewrite decide_True by done.
  - unfold get_data_batch, df_sample.
    rewrite decide_False by lia. by rewrite decide_True by done.
Qed.

(** C9.  [save] and [restore] raise [NotImplementedError] for every
    environment, and never return. *)
Theorem C9_save_restore_unsupported (env : StaticEnvironment) :
  save env = Raise (NotImplementedError "StaticEnvironment does not support save/restore.")
  ∧ restore env = Raise (NotImplementedError "StaticEnvironment does not support save/restore.")
  ∧ ¬ returns (save env) ∧ ¬ returns (restore env).
Proof. split_and!; [done | done | by intros [? ?] | by intros [? ?]]. Qed.

(** C10.  Under a matching function named otherwise than [exact] and
    [fuzzy], when the ground-truth column of every skill output is
    missing, the call never raises the [NotImplementedError] of the
    unknown matching function; when the sampling succeeds and every skill
    output is a column of the predictions it returns, and every cell of
    both tables is unknown. *)
Theorem C10_unsupported_policy_not_checked
    env rng skills predictions num_feedbacks name :
  matching_function env = MFName name → name ≠ "exact" → name ≠ "fuzzy" →
  (∀ f, f ∈ skills → gt_column_of env f ∉ df_columns (df env)) →
  (∀ msg, get_feedback env rng skills predictions num_feedbacks
          ≠ Raise (NotImplementedError msg))
  ∧ (∀ p, sample_predictions rng predictions num_feedbacks = Ok p →
       (∀ f, f ∈ skills → f ∈ df_columns p) →
       ∃ fb, get_feedback env rng skills predictions num_feedbacks = Ok fb
             ∧ ∀ f r, f ∈ skills → r ∈ df_index p →
                 df_at (fb_match fb) r f = Some NaN
                 ∧ df_at (fb_feedback fb) r f = Some NaN).
Proof.
  intros Hmf Hexact Hfuzzy Habsent. split.
  - intros msg Hraise. unfold get_feedback in Hraise.
    apply bind_Raise in Hraise as [Hs|(p & Hp & Hraise)].
    { by apply sample_predictions_Raise in Hs as [? [=]]. }
    apply bind_Raise in Hraise as [Hloop|(d & _ & [=])].
    apply feedback_loop_Raise_inv in Hloop as (c & Hc & Hfield).
    destruct (decide (c ∈ df_columns p)) as [Hcol|Hcol].
    + by rewrite field_feedback_absent in Hfield by auto.
    + by rewrite field_feedback_missing in Hfield by done.
  - intros p Hp Hcols.
    destruct (feedback_loop_returns env p skills [] []) as [[pm pf] Hloop].
    { apply Forall_forall. intros c Hc. eexists.
      apply field_feedback_absent; auto. }
    eexists. split.
    { unfold get_feedback. rewrite Hp. cbn. rewrite Hloop. cbn. done. }
    intros f r Hf Hr. cbn [fb_match fb_feedback].
    destruct (feedback_loop_spec _ _ _ _ _ _ _ Hloop f) as [Hin _].
    destruct (Hin Hf) as (m & fbk & Hfield & Hm & Hfbk).
    rewrite field_feedback_absent in Hfield by auto.
    injection Hfield as <- <-.
    rewrite (df_at_assembled pm _ f _ r Hm Hr), (df_at_assembled pf _ f _ r Hfbk Hr).
    by rewrite series_get_const.
Qed.

(** ** Further properties of the environment *)

(** *** The columns of the result *)

Lemma dict_set_keys {V} (k : string) (v : V) (d : list (string * V)) :
  (dict_set k v d).*1 = if decide (k ∈ d.*1) then d.*1 else d.*1 ++ [k].
Proof.
  induction d as [|[k' v'] d IH]; [done |].
  cbn [dict_set]. rewrite fmap_cons. cbn [fst].
  destruct (decide (k' = k)) as [->|Hne].
  - rewrite decide_True by left. done.
  - rewrite fmap_cons. cbn [fst]. rewrite IH.
    destruct (decide (k ∈ d.*1)) as [Hin|Hin].
    + rewrite decide_True by by right. done.
    + rewrite decide_False; [done |].
      rewrite elem_of_cons. intros [?|?]; congruence.
Qed.

Lemma feedback_loop_keys env predictions cols pm0 pf0 pm pf :
  feedback_loop env predictions cols pm0 pf0 = Ok (pm, pf) →
  pm.*1 = add_keys cols pm0.*1 ∧ pf.*1 = add_keys cols pf0.*1.
Proof.
  revert pm0 pf0. induction cols as [|c cols IH]; intros pm0 pf0; simpl.
  - by intros [= <- <-].
  - intros Hloop. apply bind_Ok in Hloop as (mf & _ & Hloop).
    destruct (IH _ _ Hloop) as [-> ->]. by rewrite !dict_set_keys.
Qed.

Lemma add_keys_elem (cols keys : list string) (f : string) :
  f ∈ add_keys cols keys ↔ f ∈ keys ∨ f ∈ cols.
Proof.
  revert keys. induction cols as [|c cols IH]; intros keys; simpl.
  - rewrite elem_of_nil. tauto.
  - rewrite IH, elem_of_cons. case_decide as Hc.
    + split; [tauto |]. intros [?|[->|?]]; tauto.
    + rewrite elem_of_app, list_elem_of_singleton. tauto.
Qed.

Lemma add_keys_NoDup (cols keys : list string) :
  NoDup keys → NoDup (add_keys cols keys).
Proof.
  revert keys. induction cols as [|c cols IH]; intros keys Hnd; simpl; [done |].
  apply IH. case_decide as Hc; [done |].
  apply NoDup_app. split_and!; [done | | apply NoDup_singleton].
  intros x Hx ->%list_elem_of_singleton. done.
Qed.

Lemma add_keys_distinct (cols keys : list string) :
  NoDup (keys ++ cols) → add_keys cols keys = keys ++ cols.
Proof.
  revert keys. induction cols as [|c cols IH]; intros keys Hnd; simpl.
  - by rewrite app_nil_r.
  - assert (c ∉ keys) as Hc.
    { apply NoDup_app in Hnd as (_ & Hdisj & _). intros Hin.
      apply (Hdisj c Hin). left. }
    rewrite decide_False by done.
    rewrite IH; rewrite <-(assoc_L (++)); done.
Qed.

(** X1.  Whenever the call returns, the two tables have the same columns:
    the skill outputs, each once, and in the order of the skill outputs
    when these are distinct. *)
Theorem X1_result_columns env rng skills predictions num_feedbacks fb :
  get_feedback env rng skills predictions num_feedbacks = Ok fb →
  df_columns (fb_feedback fb) = df_columns (fb_match fb)
  ∧ NoDup (df_columns (fb_match fb))
  ∧ (∀ f, f ∈ df_columns (fb_match fb) ↔ f ∈ skills)
  ∧ (NoDup skills → df_columns (fb_match fb) = skills).
Proof.
  intros Hfb. apply get_feedback_Ok in Hfb as (p & pm & pf & _ & Hloop & ->).
  apply feedback_loop_keys in Hloop as [Hpm Hpf].
  cbn [fb_match fb_feedback df_reindex frame_of_series df_columns].
  rewrite Hpm, Hpf. split_and!.
  - done.
  - apply add_keys_NoDup, NoDup_nil_2.
  - intros f. rewrite add_keys_elem, elem_of_nil. tauto.
  - intros Hnd. by apply (add_keys_distinct skills []).
Qed.

(** *** Batches and samples *)

Lemma df_sample_returns (rng : list nat) (n : Z) (d : DataFrame) :
  returns (df_sample rng n d) ↔ (0 ≤ n ≤ Z.of_nat (length (df_rows d)))%Z.
Proof.
  unfold df_sample, returns. repeat case_decide.
  - split; [by intros [? ?] | lia].
  - split; [by intros [? ?] | lia].
  - split; [lia | eauto].
Qed.

(** X2.  [get_data_batch] without a batch size returns the ground-truth
    table itself.  With a batch size [n] it returns iff [n] is between 0
    and the number of rows; the batch has the columns of the table and
    exactly [n] rows, each a row of the table, none taken more often than
    the table has it. *)
Theorem X2_data_batch env rng n :
  get_data_batch env rng None = Ok (df env)
  ∧ (returns (get_data_batch env rng (Some n))
     ↔ (0 ≤ n ≤ Z.of_nat (length (df_rows (df env))))%Z)
  ∧ (∀ d, get_data_batch env rng (Some n) = Ok d →
       df_columns d = df_columns (df env)
       ∧ Z.of_nat (length (df_rows d)) = n
       ∧ df_rows d ⊆+ df_rows (df env)).
Proof.
  split_and!; [done | apply df_sample_returns |].
  intros d Hd. apply df_sample_Ok in Hd. tauto.
Qed.

(** X3.  A batch of the size of the ground-truth table is the table with
    its rows in some order. *)
Theorem X3_full_batch_is_permutation env rng d :
  get_data_batch env rng (Some (Z.of_nat (length (df_rows (df env))))) = Ok d →
  df_rows d ≡ₚ df_rows (df env).
Proof.
  intros Hd. apply df_sample_Ok in Hd as (_ & Hsub & Hlen).
  apply submseteq_length_Permutation; [done | lia].
Qed.

(** X4.  With [num_feedbacks = n], a call that returns gives tables of
    exactly [n] rows. *)
Theorem X4_feedback_sample_size env rng skills predictions n fb :
  get_feedback env rng skills predictions (Some n) = Ok fb →
  Z.of_nat (length (df_rows (fb_match fb))) = n
  ∧ Z.of_nat (length (df_rows (fb_feedback fb))) = n.
Proof.
  intros Hfb. apply get_feedback_Ok in Hfb as (p & pm & pf & Hp & _ & ->).
  apply df_sample_Ok in Hp as (_ & _ & Hlen).
  cbn [fb_match fb_feedback df_reindex df_rows].
  rewrite !length_fmap. unfold df_index. by rewrite length_fmap.
Qed.

(** *** The custom comparator *)

Lemma row_lookup_Some_index (r : Z) (rows : list (Z * list cell)) (cs : list cell) :
  row_lookup r rows = Some cs → r ∈ rows.*1.
Proof.
  induction rows as [|[l cs'] rows IH]; [done |].
  cbn [row_lookup]. rewrite fmap_cons. cbn [fst].
  destruct (decide (l = r)) as [->|Hne]; [intros _; left |].
  intros H. right. by apply IH.
Qed.

Lemma df_at_Some (d : DataFrame) (r : Z) (c : string) (v : cell) :
  df_at d r c = Some v → r ∈ df_index d ∧ c ∈ df_columns d.
Proof.
  unfold df_at. destruct (row_lookup r (df_rows d)) as [cs|] eqn:Hrow; [|done].
  cbn. destruct (position c (df_columns d)) as [j|] eqn:Hpos; [|done].
  intros _. split.
  - by eapply row_lookup_Some_index.
  - destruct (decide (c ∈ df_columns d)) as [|Hn]; [done |].
    apply position_None in Hn. congruence.
Qed.

(** X5.  Under a comparator [cmp] given as a function, at a row where the
    ground truth [g] and the prediction [q] are both non-null, the match
    is [cmp g q], the ground truth being the first argument, and the
    feedback is the sentence for that match. *)
Theorem X5_custom_comparator
    env rng skills predictions num_feedbacks fb p f r cmp g q :
  NoDup (df_index (df env)) → NoDup (df_index predictions) →
  matching_function env = MFCallable cmp →
  get_feedback env rng skills predictions num_feedbacks = Ok fb →
  sample_predictions rng predictions num_feedbacks = Ok p →
  f ∈ skills →
  df_at (df env) r (gt_column_of env f) = Some g →
  df_at p r f = Some q →
  g ≠ NaN → q ≠ NaN →
  df_at (fb_match fb) r f = Some (Bool (cmp g q))
  ∧ df_at (fb_feedback fb) r f
    = Some (Str (if cmp g q then "Prediction is correct."
                 else "Prediction is incorrect. Correct answer: "
                      +:+ dquote +:+ py_str g +:+ dquote)).
Proof.
  intros Hnd_df Hnd_p Hmf Hfb Hp Hf Hg Hq Hgnn Hqnn.
  destruct (df_at_Some _ _ _ _ Hq) as [Hr _].
  destruct (df_at_Some _ _ _ _ Hg) as [_ Hgt].
  destruct (result_cells _ _ _ _ _ _ _ f r Hnd_df Hnd_p Hfb Hp Hf Hr)
    as [(Habs & _)|(_ & cmp' & Hcmp & -> & ->)]; [done |].
  unfold matcher in Hcmp. rewrite Hmf in Hcmp. injection Hcmp as <-.
  rewrite Hg, Hq. cbn [default from_option]. unfold id, match_cell, feedback_cell, sentence.
  assert (notnull g && notnull q = true) as -> by by destruct g, q.
  split; [done |]. by destruct (cmp g q).
Qed.

Lemma result_bind_Ok {A B} (a : A) (k : A → result B) : Ok a ≫= k = k a.
Proof. done. Qed.

(** The series that pass the filter of line 80 hold no null, so that two
    comparators that agree on non-null values give the same matches. *)
Lemma series_combine_masked_ext (f1 f2 : cell → cell → bool) (a b : Series) :
  (∀ g p, g ≠ NaN → p ≠ NaN → f1 g p = f2 g p) →
  series_combine (λ g p, Bool (f1 g p))
    (series_mask a (mask_and (series_notnull a) (series_notnull b)))
    (series_mask b (mask_and (series_notnull a) (series_notnull b)))
  = series_combine (λ g p, Bool (f2 g p))
      (series_mask a (mask_and (series_notnull a) (series_notnull b)))
      (series_mask b (mask_and (series_notnull a) (series_notnull b))).
Proof.
  intros Hext. unfold series_combine, series_mask, mask_and, series_notnull.
  revert b. induction a as [|[la va] a IH]; intros [|[lb vb] b]; try done.
  csimpl. rewrite !filter_cons. cbn [snd].
  destruct (notnull va && notnull vb) eqn:E.
  - rewrite !decide_True by done. csimpl. rewrite IH.
    rewrite (Hext va vb); [done | |]; destruct va, vb; done.
  - rewrite !decide_False by done. apply IH.
Qed.

Lemma field_feedback_comparator_ext d m th f1 f2 predictions c :
  (∀ g p, g ≠ NaN → p ≠ NaN → f1 g p = f2 g p) →
  field_feedback (mkStaticEnvironment d m (MFCallable f1) th) predictions c
  = field_feedback (mkStaticEnvironment d m (MFCallable f2) th) predictions c.
Proof.
  intros Hext. unfold field_feedback, gt_column_of, compare.
  cbn [df ground_truth_columns matching_function].
  destruct (df_getitem predictions c) as [pred|e]; [|done].
  rewrite !result_bind_Ok. case_bool_decide; [done |].
  destruct (df_getitem d _) as [gt|e]; [|done].
  rewrite !result_bind_Ok.
  destruct (series_align gt pred) as [gt' pred'].
  rewrite !result_bind_Ok.
  by rewrite (series_combine_masked_ext f1 f2 gt' pred' Hext).
Qed.

Lemma feedback_loop_ext env1 env2 predictions cols pm0 pf0 :
  (∀ c, field_feedback env1 predictions c = field_feedback env2 predictions c) →
  feedback_loop env1 predictions cols pm0 pf0
  = feedback_loop env2 predictions cols pm0 pf0.
Proof.
  intros Hext. revert pm0 pf0.
  induction cols as [|c cols IH]; intros pm0 pf0; [done |].
  cbn [feedback_loop]. rewrite Hext.
  destruct (field_feedback env2 predictions c) as [mf|e]; [|done].
  rewrite !result_bind_Ok. apply IH.
Qed.

(** X6.  The comparator is consulted on non-null values only: two
    comparators that agree on all pairs of non-null values give the same
    result, or the same exception. *)
Theorem X6_comparator_on_nonnull_pairs
    d m th f1 f2 rng skills predictions num_feedbacks :
  (∀ g p, g ≠ NaN → p ≠ NaN → f1 g p = f2 g p) →
  get_feedback (mkStaticEnvironment d m (MFCallable f1) th)
    rng skills predictions num_feedbacks
  = get_feedback (mkStaticEnvironment d m (MFCallable f2) th)
      rng skills predictions num_feedbacks.
Proof.
  intros Hext. unfold get_feedback.
  destruct (sample_predictions rng predictions num_feedbacks) as [p|e]; [|done].
  rewrite !result_bind_Ok.
  rewrite (feedback_loop_ext _ (mkStaticEnvironment d m (MFCallable f2) th)); [done |].
  intros c. by apply field_feedback_comparator_ext.
Qed.

(** *** The loop over the skill outputs *)

(** X7.  A column of the result does not depend on the other skill
    outputs: when the call returns, the call on the single output [f]
    returns as well, with the same cells in the column [f]. *)
Theorem X7_field_alone env rng skills predictions num_feedbacks fb f :
  get_feedback env rng skills predictions num_feedbacks = Ok fb →
  f ∈ skills →
  ∃ fb1, get_feedback env rng [f] predictions num_feedbacks = Ok fb1
         ∧ df_index (fb_match fb1) = df_index (fb_match fb)
         ∧ ∀ r, r ∈ df_index (fb_match fb) →
             df_at (fb_match fb1) r f = df_at (fb_match fb) r f
             ∧ df_at (fb_feedback fb1) r f = df_at (fb_feedback fb) r f.
Proof.
  intros Hfb Hf. apply get_feedback_Ok in Hfb as (p & pm & pf & Hp & Hloop & ->).
  destruct (feedback_loop_spec _ _ _ _ _ _ _ Hloop f) as [Hin _].
  destruct (Hin Hf) as (m & fbk & Hfield & Hm & Hfbk).
  eexists. split_and!.
  - unfold get_feedback. rewrite Hp, result_bind_Ok. cbn [feedback_loop].
    rewrite Hfield, !result_bind_Ok. reflexivity.
  - cbn [fb_match]. by rewrite !df_reindex_index.
  - cbn [fb_match fb_feedback fst snd dict_set]. intros r Hr.
    rewrite df_reindex_index in Hr.
    rewrite (df_at_assembled pm _ f m r Hm Hr), (df_at_assembled pf _ f fbk r Hfbk Hr).
    split; apply df_at_assembled; try done; cbn; by rewrite decide_True.
Qed.

Lemma dict_set_same {V} (k : string) (v : V) (d : list (string * V)) :
  dict_get k d = Some v → dict_set k v d = d.
Proof.
  induction d as [|[k' v'] d IH]; [done |]. cbn [dict_get dict_set].
  destruct (decide (k' = k)) as [->|Hne].
  - by intros [= ->].
  - intros H. by rewrite IH.
Qed.

Lemma feedback_loop_app env predictions l1 l2 pm0 pf0 :
  feedback_loop env predictions (l1 ++ l2) pm0 pf0
  = feedback_loop env predictions l1 pm0 pf0
      ≫= λ d, feedback_loop env predictions l2 d.1 d.2.
Proof.
  revert pm0 pf0. induction l1 as [|c l1 IH]; intros pm0 pf0; [done |].
  cbn [app feedback_loop].
  destruct (field_feedback env predictions c) as [mf|e]; [|done].
  rewrite !result_bind_Ok. apply IH.
Qed.

Lemma feedback_loop_repeated env predictions cols l :
  (∀ c, c ∈ l → c ∈ cols) →
  feedback_loop env predictions (cols ++ l) [] []
  = feedback_loop env predictions cols [] [].
Proof.
  induction l as [|c l IH] using rev_ind; intros Hl.
  - by rewrite app_nil_r.
  - rewrite (assoc_L (++)), feedback_loop_app, IH.
    2:{ intros c' Hc'. apply Hl, elem_of_app. by left. }
    destruct (feedback_loop env predictions cols [] []) as [[pm pf]|e] eqn:Hloop;
      [|done].
    rewrite result_bind_Ok. cbn [fst snd feedback_loop].
    destruct (feedback_loop_spec _ _ _ _ _ _ _ Hloop c) as [Hin _].
    destruct Hin as (m & fbk & Hfield & Hm & Hfbk).
    { apply Hl, elem_of_app. right. left. }
    rewrite Hfield, result_bind_Ok. cbn [fst snd].
    by rewrite (dict_set_same _ _ _ Hm), (dict_set_same _ _ _ Hfbk).
Qed.

(** X8.  Skill outputs that are listed again change nothing: the call
    returns the same result, or raises the same exception, as without the
    repetitions. *)
Theorem X8_repeated_outputs env rng skills again predictions num_feedbacks :
  (∀ c, c ∈ again → c ∈ skills) →
  get_feedback env rng (skills ++ again) predictions num_feedbacks
  = get_feedback env rng skills predictions num_feedbacks.
Proof.
  intros Hagain. unfold get_feedback.
  destruct (sample_predictions rng predictions num_feedbacks) as [p|e]; [|done].
  rewrite !result_bind_Ok. by rewrite feedback_loop_repeated.
Qed.

(** *** The exceptions of the call *)










(** X11.  The rows of the ground truth whose label is not a label of the
    predictions have no influence: on two ground-truth tables with the
    same columns and the same row at every label of the predictions, two
    calls that return give the same cells. *)
Theorem X11_reference_rows_outside_predictions
    d1 d2 m mf th rng skills predictions num_feedbacks fb1 fb2 p f r :
  df_columns d1 = df_columns d2 →
  NoDup (df_index d1) → NoDup (df_index d2) → NoDup (df_index predictions) →
  (∀ l, l ∈ df_index predictions →
     row_lookup l (df_rows d1) = row_lookup l (df_rows d2)) →
  get_feedback (mkStaticEnvironment d1 m mf th)
    rng skills predictions num_feedbacks = Ok fb1 →
  get_feedback (mkStaticEnvironment d2 m mf th)
    rng skills predictions num_feedbacks = Ok fb2 →
  sample_predictions rng predictions num_feedbacks = Ok p →
  f ∈ skills → r ∈ df_index p →
  df_at (fb_match fb1) r f = df_at (fb_match fb2) r f
  ∧ df_at (fb_feedback fb1) r f = df_at (fb_feedback fb2) r f.
Proof.
  intros Hcols Hnd1 Hnd2 Hnd_p Hrows Hfb1 Hfb2 Hp Hf Hr.
  assert (r ∈ df_index predictions) as Hr'.
  { apply sample_predictions_Ok in Hp as [_ Hsub].
    assert (df_index p ⊆+ df_index predictions) as Hsub'
      by by apply fmap_submseteq.
    by eapply elem_of_submseteq. }
  assert (∀ c, df_at d1 r c = df_at d2 r c) as Hat.
  { intros c. unfold df_at. by rewrite Hrows, Hcols. }
  destruct (result_cells (mkStaticEnvironment d1 m mf th) _ _ _ _ _ _ f r
              Hnd1 Hnd_p Hfb1 Hp Hf Hr)
    as [(Habs1 & -> & ->)|(Hgt1 & cmp1 & Hcmp1 & -> & ->)];
  destruct (result_cells (mkStaticEnvironment d2 m mf th) _ _ _ _ _ _ f r
              Hnd2 Hnd_p Hfb2 Hp Hf Hr)
    as [(Habs2 & -> & ->)|(Hgt2 & cmp2 & Hcmp2 & -> & ->)];
  cbn [df] in *.
  - done.
  - exfalso. apply Habs1. by rewrite Hcols.
  - exfalso. apply Habs2. by rewrite <-Hcols.
  - assert (cmp1 = cmp2) as -> by (unfold matcher in *; cbn in *; congruence).
    unfold gt_column_of. cbn [ground_truth_columns df]. by rewrite Hat.
Qed.


(** *** What the configuration influences *)

Lemma feedback_loop_ext_in env1 env2 predictions cols pm0 pf0 :
  (∀ c, c ∈ cols →
     field_feedback env1 predictions c = field_feedback env2 predictions c) →
  feedback_loop env1 predictions cols pm0 pf0
  = feedback_loop env2 predictions cols pm0 pf0.
Proof.
  revert pm0 pf0.
  induction cols as [|c cols IH]; intros pm0 pf0 Hext; [done |].
  cbn [feedback_loop]. rewrite Hext by left.
  destruct (field_feedback env2 predictions c) as [mf|e]; [|done].
  rewrite !result_bind_Ok. apply IH. intros c' Hc'. apply Hext. by right.
Qed.

(** X13.  Only the entries of [ground_truth_columns] for the skill
    outputs are read: two mappings that agree on the skill outputs give
    the same result, or the same exception. *)
Theorem X13_mapping_of_other_outputs
    d m1 m2 mf th rng skills predictions num_feedbacks :
  (∀ c, c ∈ skills → m1 !! c = m2 !! c) →
  get_feedback (mkStaticEnvironment d m1 mf th)
    rng skills predictions num_feedbacks
  = get_feedback (mkStaticEnvironment d m2 mf th)
      rng skills predictions num_feedbacks.
Proof.
  intros Hm. unfold get_feedback.
  destruct (sample_predictions rng predictions num_feedbacks) as [p|e]; [|done].
  rewrite !result_bind_Ok.
  rewrite (feedback_loop_ext_in _ (mkStaticEnvironment d m2 mf th)); [done |].
  intros c Hc. unfold field_feedback, gt_column_of, compare.
  cbn [df ground_truth_columns matching_function matching_threshold].
  by rewrite (Hm c Hc).
Qed.

(** X14.  The threshold is read by the [fuzzy] matching function only:
    under any other matching function, two thresholds give the same
    result, or the same exception. *)
Theorem X14_threshold_only_for_fuzzy
    d m mf th1 th2 rng skills predictions num_feedbacks :
  mf ≠ MFName "fuzzy" →
  get_feedback (mkStaticEnvironment d m mf th1)
    rng skills predictions num_feedbacks
  = get_feedback (mkStaticEnvironment d m mf th2)
      rng skills predictions num_feedbacks.
Proof.
  intros Hmf. unfold get_feedback.
  destruct (sample_predictions rng predictions num_feedbacks) as [p|e]; [|done].
  rewrite !result_bind_Ok.
  rewrite (feedback_loop_ext _ (mkStaticEnvironment d m mf th2)); [done |].
  intros c. unfold field_feedback, gt_column_of, compare.
  cbn [df ground_truth_columns matching_function matching_threshold].
  destruct mf as [name|f]; [|done].
  destruct (decide (name = "exact")); [done |].
  destruct (decide (name = "fuzzy")) as [->|]; done.
Qed.

End StaticEnvironment.

(** ** The theorems on the example tables *)

Lemma C1_witness :
  df_at (fb_match ex_feedback) 2 "color" = Some NaN
  ∧ df_at (fb_feedback ex_feedback) 2 "color" = Some NaN.
Proof.
  apply (C1_absent_reference_column_unknown ex_similarity
           (ex_env (MFName "exact")) [] ["label"; "color"] ex_predictions None
           ex_feedback ex_predictions "color" 2).
  - vm_compute. reflexivity.
  - reflexivity.
  - by_compute.
  - by_compute.
  - by_compute.
Defined.

Lemma C2_witness :
  df_at (fb_match ex_feedback) 4 "label" = Some NaN
  ∧ df_at (fb_feedback ex_feedback) 4 "label" = Some NaN.
Proof.
  eapply (C2_null_row_unknown ex_similarity
            (ex_env (MFName "exact")) [] ["label"; "color"] ex_predictions None
            ex_feedback ex_predictions "label" _ _
            ex_gt_aligned ex_pred_aligned 4).
  - by_compute.
  - by_compute.
  - vm_compute. reflexivity.
  - reflexivity.
  - by_compute.
  - reflexivity.
  - reflexivity.
  - reflexivity.
  - by_compute.
  - left. vm_compute. reflexivity.
Defined.

Lemma C3_witness :
  (df_at (fb_match ex_feedback) 2 "label" = Some (Bool true)
     ↔ df_at (fb_feedback ex_feedback) 2 "label" = Some (Str "Prediction is correct."))
  ∧ (df_at (fb_match ex_feedback) 2 "label" = Some (Bool false)
     ↔ ∃ g, df_at ex_reference 2 "label" = Some g
          ∧ df_at (fb_feedback ex_feedback) 2 "label"
            = Some (Str ("Prediction is incorrect. Correct answer: "
                         +:+ dquote +:+ py_str g +:+ dquote)))
  ∧ (df_at (fb_match ex_feedback) 2 "label" = Some NaN
     ↔ df_at (fb_feedback ex_feedback) 2 "label" = Some NaN)
  ∧ (df_at (fb_match ex_feedback) 2 "label" = Some (Bool true)
     ∨ df_at (fb_match ex_feedback) 2 "label" = Some (Bool false)
     ∨ df_at (fb_match ex_feedback) 2 "label" = Some NaN).
Proof.
  apply (C3_match_and_feedback_agree ex_similarity
           (ex_env (MFName "exact")) [] ["label"; "color"] ex_predictions None
           ex_feedback ex_predictions "label" 2).
  - by_compute.
  - by_compute.
  - vm_compute. reflexivity.
  - reflexivity.
  - by_compute.
  - by_compute.
Defined.

Lemma C4_witness :
  ∃ p, sample_predictions [] ex_predictions None = Ok p
       ∧ df_index (fb_match ex_feedback) = df_index p
       ∧ df_index (fb_feedback ex_feedback) = df_index p
       ∧ df_index p ⊆+ df_index ex_predictions
       ∧ (@None Z = None → p = ex_predictions).
Proof.
  apply (C4_row_index_of_predictions ex_similarity
           (ex_env (MFName "exact")) [] ["label"; "color"] ex_predictions None
           ex_feedback).
  vm_compute. reflexivity.
Defined.



Lemma C6_witness :
  (df_at (fb_match ex_feedback) 1 "label" = Some (Bool true)
     ↔ series_get 1 ex_gt_aligned = series_get 1 ex_pred_aligned)
  ∧ (df_at (fb_match ex_feedback) 1 "label" = Some (Bool false)
     ↔ series_get 1 ex_gt_aligned ≠ series_get 1 ex_pred_aligned).
Proof.
  eapply (C6_exact_match_is_equality ex_similarity
            (ex_env (MFName "exact")) [] ["label"; "color"] ex_predictions None
            ex_feedback ex_predictions "label" _ _
            ex_gt_aligned ex_pred_aligned 1).
  - by_compute.
  - by_compute.
  - reflexivity.
  - vm_compute. reflexivity.
  - reflexivity.
  - by_compute.
  - reflexivity.
  - reflexivity.
  - reflexivity.
  - by_compute.
  - by_compute.
  - by_compute.
Defined.


Lemma C8_witness :
  get_feedback ex_similarity (ex_env (MFName "exact")) [] ["label"] ex_predictions (Some 5)
  = Raise (ValueError
      "Cannot take a larger sample than population when 'replace=False'")
  ∧ get_data_batch (ex_env (MFName "exact")) [] (Some 5)
    = Raise (ValueError
        "Cannot take a larger sample than population when 'replace=False'").
Proof.
  destruct (C8_sample_larger_than_table ex_similarity
              (ex_env (MFName "exact")) [] ["label"] ex_predictions 5) as [Hf Hb].
  split; [apply Hf | apply Hb]; vm_compute; reflexivity.
Defined.

Lemma C10_witness :
  (∀ msg, get_feedback ex_similarity (ex_env (MFName "regex")) [] ["color"]
            ex_predictions None ≠ Raise (NotImplementedError msg))
  ∧ ∃ fb, get_feedback ex_similarity (ex_env (MFName "regex")) [] ["color"]
            ex_predictions None = Ok fb
          ∧ ∀ f r, f ∈ ["color"] → r ∈ df_index ex_predictions →
              df_at (fb_match fb) r f = Some NaN
              ∧ df_at (fb_feedback fb) r f = Some NaN.
Proof.
  destruct (C10_unsupported_policy_not_checked ex_similarity
              (ex_env (MFName "regex")) [] ["color"] ex_predictions None "regex")
    as [Hno Hret].
  - reflexivity.
  - by_compute.
  - by_compute.
  - intros f Hf. apply elem_of_cons in Hf as [->|Hf]; [by_compute |].
    by apply elem_of_nil in Hf.
  - split; [exact Hno |]. apply (Hret ex_predictions).
    + reflexivity.
    + intros f Hf. in_skills Hf.
Defined.

(** ** The further properties on the example tables *)

Lemma X1_witness :
  df_columns (fb_feedback ex_feedback) = df_columns (fb_match ex_feedback)
  ∧ NoDup (df_columns (fb_match ex_feedback))
  ∧ (∀ f, f ∈ df_columns (fb_match ex_feedback) ↔ f ∈ ["label"; "color"])
  ∧ (NoDup ["label"; "color"] → df_columns (fb_match ex_feedback) = ["label"; "color"]).
Proof.
  apply (X1_result_columns ex_similarity (ex_env (MFName "exact")) []
           ["label"; "color"] ex_predictions None ex_feedback).
  vm_compute. reflexivity.
Defined.

Lemma X2_witness :
  returns (get_data_batch (ex_env (MFName "exact")) [3%nat; 1%nat] (Some 4))
  ∧ df_columns ex_batch = df_columns ex_reference
  ∧ Z.of_nat (length (df_rows ex_batch)) = 4
  ∧ df_rows ex_batch ⊆+ df_rows ex_reference.
Proof.
  destruct (X2_data_batch (ex_env (MFName "exact")) [3%nat; 1%nat] 4)
    as (_ & Hret & Hbatch).
  split.
  - apply Hret. vm_compute. split; discriminate.
  - apply (Hbatch ex_batch). vm_compute. reflexivity.
Defined.

Lemma X3_witness : df_rows ex_batch ≡ₚ df_rows ex_reference.
Proof.
  apply (X3_full_batch_is_permutation (ex_env (MFName "exact")) [3%nat; 1%nat]
           ex_batch).
  vm_compute. reflexivity.
Defined.

Lemma X4_witness :
  Z.of_nat (length (df_rows (fb_match ex_feedback_sampled))) = 2
  ∧ Z.of_nat (length (df_rows (fb_feedback ex_feedback_sampled))) = 2.
Proof.
  apply (X4_feedback_sample_size ex_similarity (ex_env (MFName "exact"))
           [3%nat; 1%nat] ["label"; "color"] ex_predictions 2 ex_feedback_sampled).
  vm_compute. reflexivity.
Defined.

Lemma X5_witness :
  df_at (fb_match ex_feedback_lenient) 2 "label"
  = Some (Bool (ex_lenient (Str "dog") (Str "doge")))
  ∧ df_at (fb_feedback ex_feedback_lenient) 2 "label"
    = Some (Str (if ex_lenient (Str "dog") (Str "doge")
                 then "Prediction is correct."
                 else "Prediction is incorrect. Correct answer: "
                      +:+ dquote +:+ py_str (Str "dog") +:+ dquote)).
Proof.
  apply (X5_custom_comparator ex_similarity (ex_env (MFCallable ex_lenient)) []
           ["label"; "color"] ex_predictions None ex_feedback_lenient
           ex_predictions "label" 2 ex_lenient (Str "dog") (Str "doge")).
  - by_compute.
  - by_compute.
  - reflexivity.
  - vm_compute. reflexivity.
  - reflexivity.
  - by_compute.
  - vm_compute. reflexivity.
  - vm_compute. reflexivity.
  - by_compute.
  - by_compute.
Defined.

Lemma X6_witness :
  get_feedback ex_similarity (ex_env (MFCallable ex_lenient)) []
    ["label"; "color"] ex_predictions None
  = get_feedback ex_similarity (ex_env (MFCallable ex_lenient_null)) []
      ["label"; "color"] ex_predictions None.
Proof.
  apply (X6_comparator_on_nonnull_pairs ex_similarity ex_reference ∅ (9 # 10)
           ex_lenient ex_lenient_null [] ["label"; "color"] ex_predictions None).
  intros g p Hg Hp. destruct g, p; done.
Defined.

Lemma X7_witness :
  ∃ fb1, get_feedback ex_similarity (ex_env (MFName "exact")) [] ["label"]
           ex_predictions None = Ok fb1
         ∧ df_index (fb_match fb1) = df_index (fb_match ex_feedback)
         ∧ ∀ r, r ∈ df_index (fb_match ex_feedback) →
             df_at (fb_match fb1) r "label" = df_at (fb_match ex_feedback) r "label"
             ∧ df_at (fb_feedback fb1) r "label"
               = df_at (fb_feedback ex_feedback) r "label".
Proof.
  apply (X7_field_alone ex_similarity (ex_env (MFName "exact")) []
           ["label"; "color"] ex_predictions None ex_feedback "label").
  - vm_compute. reflexivity.
  - by_compute.
Defined.

Lemma X8_witness :
  get_feedback ex_similarity (ex_env (MFName "exact")) []
    (["label"; "color"] ++ ["label"]) ex_predictions None
  = get_feedback ex_similarity (ex_env (MFName "exact")) []
      ["label"; "color"] ex_predictions None.
Proof.
  apply (X8_repeated_outputs ex_similarity (ex_env (MFName "exact")) []
           ["label"; "color"] ["label"] ex_predictions None).
  intros c Hc. in_skills Hc.
Defined.



Lemma X11_witness :
  df_at (fb_match ex_feedback) 2 "label" = df_at (fb_match ex_feedback) 2 "label"
  ∧ df_at (fb_feedback ex_feedback) 2 "label"
    = df_at (fb_feedback ex_feedback) 2 "label".
Proof.
  apply (X11_reference_rows_outside_predictions ex_similarity
           ex_reference ex_reference_small ∅ (MFName "exact") (9 # 10) []
           ["label"; "color"] ex_predictions None ex_feedback ex_feedback
           ex_predictions "label" 2).
  - reflexivity.
  - by_compute.
  - by_compute.
  - by_compute.
  - intros l Hl.
    repeat (apply elem_of_cons in Hl as [->|Hl]; [vm_compute; reflexivity |]).
    by apply elem_of_nil in Hl.
  - vm_compute. reflexivity.
  - vm_compute. reflexivity.
  - reflexivity.
  - by_compute.
  - by_compute.
Defined.


Lemma X13_witness :
  get_feedback ex_similarity (ex_env (MFName "exact")) []
    ["label"; "color"] ex_predictions None
  = get_feedback ex_similarity
      {| df := ex_reference;
         ground_truth_columns := {["shape" := "label"]};
         matching_function := MFName "exact";
         matching_threshold := 9 # 10 |} []
      ["label"; "color"] ex_predictions None.
Proof.
  apply (X13_mapping_of_other_outputs ex_similarity ex_reference
           ∅ {["shape" := "label"]} (MFName "exact") (9 # 10) []
           ["label"; "color"] ex_predictions None).
  intros c Hc.
  repeat (apply elem_of_cons in Hc as [->|Hc]; [vm_compute; reflexivity |]).
  by apply elem_of_nil in Hc.
Defined.

Lemma X14_witness :
  get_feedback ex_similarity (ex_env (MFName "exact")) []
    ["label"; "color"] ex_predictions None
  = get_feedback ex_similarity
      {| df := ex_reference;
         ground_truth_columns := ∅;
         matching_function := MFName "exact";
         matching_threshold := 1 # 2 |} []
      ["label"; "color"] ex_predictions None.
Proof.
  apply (X14_threshold_only_for_fuzzy ex_similarity ex_reference ∅
           (MFName "exact") (9 # 10) (1 # 2) [] ["label"; "color"]
           ex_predictions None).
  discriminate.
Defined.
